(** * PM internship allocation engine: quota planning, diversity boosts and
      the two-phase quota-constrained allocation

    Shallow embedding of [backend/services/affirmative_action_service.py]
    (class [AffirmativeActionService]) and of the salary component of
    [backend/services/enhanced_internship_service.py]
    ([_calculate_real_match_score]).

    Conventions of the embedding
    - Python [int] is [Z]; Python [float] is modelled by exact rationals [Q]
      (no rounding, no overflow); [int(x)] on a float truncates toward zero.
    - A Python [dict] is a [gmap]; [d[k]] on a missing key raises [KeyError],
      [d.get(k, v)] does not.  A [set] is a [gset].
    - Identifiers read with [match.get('candidate_id')] are [option string]:
      [None] is Python's [None] (field absent).
    - Exceptions are values of [exn]; a computation that may raise returns a
      [result]. *)

From Stdlib Require Import ZArith QArith Qround Qabs Qminmax Ascii String Lia.
From Stdlib Require Import Sorted Lqa.
From stdpp Require Import gmap strings list fin_maps.

Local Open Scope Z_scope.

(** ** Exceptions and the error monad *)

Inductive exn : Type :=
  | KeyError
  | AttributeError
  | ValueError
  | ZeroDivisionError.

Inductive result (A : Type) : Type :=
  | Ok (a : A)
  | Err (e : exn).

Arguments Ok {A} a.
Arguments Err {A} e.

#[global] Instance result_ret : MRet result := fun _ a => Ok a.

#[global] Instance result_bind : MBind result := fun _ _ k m =>
  match m with
  | Ok a => k a
  | Err e => Err e
  end.

(** [d[k]] *)
Definition dict_index {K : Type} `{Countable K} {V : Type}
    (d : gmap K V) (k : K) : result V :=
  match d !! k with
  | Some v => Ok v
  | None => Err KeyError
  end.

(** [d.get(k, dflt)] *)
Definition dict_get {K : Type} `{Countable K} {V : Type}
    (d : gmap K V) (k : K) (dflt : V) : V :=
  default dflt (d !! k).

(** [sum(d.values())] for an integer-valued dict *)
Definition dict_sum {K : Type} `{Countable K} (d : gmap K Z) : Z :=
  map_fold (fun _ v acc => v + acc) 0 d.

(** [sum(d.values())] for a float-valued dict *)
Definition dict_qsum {K : Type} `{Countable K} (d : gmap K Q) : Q :=
  map_fold (fun _ v acc => (v + acc)%Q) 0%Q d.

(** [int(x)] for a float [x]: truncation toward zero *)
Definition py_int (q : Q) : Z := Z.quot (Qnum q) (Z.pos (Qden q)).

(** ** The service object *)

Record diversity_boost_table : Type := {
  boost_rural : Q;
  boost_female : Q;
  boost_pwd : Q;
  boost_first_generation : Q
}.

Record service : Type := {
  quotas : gmap string Q;
  rural_quota_percentage : Q;
  diversity_boost : diversity_boost_table
}.

(** [__init__] *)
Definition init_service : service := {|
  quotas := list_to_map
    [("general"%string, 475 # 1000); ("sc"%string, 15 # 100);
     ("st"%string, 75 # 1000); ("obc"%string, 27 # 100);
     ("ews"%string, 10 # 100)]%Q;
  rural_quota_percentage := 30 # 100;
  diversity_boost := {|
    boost_rural := 5 # 100;
    boost_female := 3 # 100;
    boost_pwd := 5 # 100;
    boost_first_generation := 4 # 100 |}
|}.

(** ** QuotaPlanner: [_calculate_quota_slots] *)

Definition initial_slots (total_capacity : Z) (percentage : Q) : Z :=
  Z.max 1 (py_int (inject_Z total_capacity * percentage)).

Definition reduced_slots (reduction_factor : Q) (slots : Z) : Z :=
  Z.max 1 (py_int (inject_Z slots * reduction_factor)).

Definition calculate_quota_slots (self : service) (total_capacity : Z)
    : result (gmap string Z) :=
  let quota_slots := initial_slots total_capacity <$> quotas self in
  let total_allocated := dict_sum quota_slots in
  if total_capacity <? total_allocated then
    if total_allocated =? 0 then Err ZeroDivisionError
    else
      let reduction_factor :=
        (inject_Z total_capacity / inject_Z total_allocated)%Q in
      Ok (reduced_slots reduction_factor <$> quota_slots)
  else Ok quota_slots.

(** ** [update_quotas]

    The method mutates [self]; it is modelled as a function returning the
    service object as it is when the call ends, and the outcome of the call. *)

Definition update_quotas (self : service) (new_quotas : gmap string Q)
    : service * result unit :=
  let total_quota := dict_qsum new_quotas in
  if Qle_bool (Qabs (total_quota - 1)) (1 # 100) then
    ({| quotas := new_quotas ∪ quotas self;
        rural_quota_percentage := rural_quota_percentage self;
        diversity_boost := diversity_boost self |}, Ok tt)
  else (self, Err ValueError).

(** [update_diversity_boosts]: only the four keys the service reads are kept
    in the model; an absent key leaves the stored weight as it is. *)
Definition update_diversity_boosts (self : service)
    (new_boosts : gmap string Q) : service :=
  let old := diversity_boost self in
  {| quotas := quotas self;
     rural_quota_percentage := rural_quota_percentage self;
     diversity_boost := {|
       boost_rural := dict_get new_boosts "rural"%string (boost_rural old);
       boost_female := dict_get new_boosts "female"%string (boost_female old);
       boost_pwd := dict_get new_boosts "pwd"%string (boost_pwd old);
       boost_first_generation :=
         dict_get new_boosts "first_generation"%string
                  (boost_first_generation old) |} |}.

(** ** Strings: [str.lower()] and the [in] substring test (ASCII) *)

Definition lower_ascii (c : ascii) : ascii :=
  let n := nat_of_ascii c in
  if ((65 <=? n) && (n <=? 90))%nat then ascii_of_nat (n + 32) else c.

Fixpoint lower (s : string) : string :=
  match s with
  | EmptyString => EmptyString
  | String c s' => String (lower_ascii c) (lower s')
  end.

(** [needle in hay] *)
Fixpoint contains (hay needle : string) : bool :=
  String.prefix needle hay ||
  match hay with
  | EmptyString => false
  | String _ hay' => contains hay' needle
  end.

(** ** Match records, internships and allocation records

    A match is a Python dict.  Fields read with a default are stored with
    that default standing for an absent key: [score] (0), [social_category],
    [location], [gender] (the empty string), the boolean flags ([False]).
    The keys written by [_apply_diversity_boosts] are optional.  Free-text
    fields that are only copied ([candidate_name], [internship_title],
    [analysis], [strengths], [recommendations]) and the wall-clock
    [timestamp] are left out. *)

Record match_record : Type := {
  m_candidate_id : option string;
  m_internship_id : option string;
  m_score : Q;
  m_social_category : string;
  m_location : string;
  m_rural_background : bool;
  m_gender : string;
  m_pwd_status : bool;
  m_disability : bool;
  m_first_generation_learner : bool;
  m_original_score : option Q;
  m_boosted_score : option Q;
  m_diversity_boost : option Q;
  m_boost_reasons : option (list string)
}.

Record internship : Type := {
  i_id : option string;
  i_capacity : option Z
}.

(** [internship.get('capacity', 1)] *)
Definition capacity_of (i : internship) : Z := default 1 (i_capacity i).

Record allocation : Type := {
  a_candidate_id : option string;
  a_internship_id : option string;
  a_original_score : Q;
  a_final_score : Q;
  a_category : string;
  a_allocation_type : string;
  a_diversity_boost : Q;
  a_boost_reasons : list string;
  a_rural_background : bool
}.

(** ** Candidate classification *)

Definition get_candidate_category (m : match_record) : string :=
  let social_category := lower (m_social_category m) in
  if bool_decide (social_category ∈ ["sc"; "scheduled caste"]%string)
  then "sc"
  else if bool_decide (social_category ∈ ["st"; "scheduled tribe"]%string)
  then "st"
  else if bool_decide (social_category ∈ ["obc"; "other backward class"]%string)
  then "obc"
  else if bool_decide
            (social_category ∈ ["ews"; "economically weaker section"]%string)
  then "ews"
  else "general".

Fixpoint get_internship_capacity (internship_id : option string)
    (internships : list internship) : Z :=
  match internships with
  | [] => 1
  | i :: rest =>
      if bool_decide (i_id i = internship_id) then capacity_of i
      else get_internship_capacity internship_id rest
  end.

Definition rural_indicators : list string :=
  ["village"; "rural"; "gram"; "tehsil"; "block"; "mandal";
   "panchayat"; "agricultural"; "farming"]%string.

Definition is_rural_candidate (m : match_record) : bool :=
  let location := lower (m_location m) in
  existsb (fun indicator => contains location indicator) rural_indicators.

Definition is_female_candidate (m : match_record) : bool :=
  bool_decide (lower (m_gender m) = "female"%string).

Definition is_pwd_candidate (m : match_record) : bool :=
  m_pwd_status m || m_disability m.

Definition is_first_generation_candidate (m : match_record) : bool :=
  m_first_generation_learner m.

(** ** Stable sort by score, highest first
    ([list.sort(key=lambda x: x.get('score', 0), reverse=True)]) *)

Fixpoint insert_by_score (x : match_record) (l : list match_record)
    : list match_record :=
  match l with
  | [] => [x]
  | y :: l' =>
      if Qle_bool (m_score y) (m_score x) then x :: y :: l'
      else y :: insert_by_score x l'
  end.

Definition sort_by_score (l : list match_record) : list match_record :=
  foldr insert_by_score [] l.

(** ** DiversityBooster: [_apply_diversity_boosts] *)

Definition boost_match (self : service) (m : match_record) : match_record :=
  let original_score := m_score m in
  let boost_factor := 0%Q in
  let boost_reasons := @nil string in
  let '(boost_factor, boost_reasons) :=
    if m_rural_background m || is_rural_candidate m
    then ((boost_factor + boost_rural (diversity_boost self))%Q,
          boost_reasons ++ ["Rural background"%string])
    else (boost_factor, boost_reasons) in
  let '(boost_factor, boost_reasons) :=
    if is_female_candidate m
    then ((boost_factor + boost_female (diversity_boost self))%Q,
          boost_reasons ++ ["Gender diversity"%string])
    else (boost_factor, boost_reasons) in
  let '(boost_factor, boost_reasons) :=
    if is_pwd_candidate m
    then ((boost_factor + boost_pwd (diversity_boost self))%Q,
          boost_reasons ++ ["Person with disability"%string])
    else (boost_factor, boost_reasons) in
  let '(boost_factor, boost_reasons) :=
    if is_first_generation_candidate m
    then ((boost_factor + boost_first_generation (diversity_boost self))%Q,
          boost_reasons ++ ["First-generation learner"%string])
    else (boost_factor, boost_reasons) in
  let boosted_score := Qmin (original_score + boost_factor) 1 in
  {| m_candidate_id := m_candidate_id m;
     m_internship_id := m_internship_id m;
     m_score := boosted_score;
     m_social_category := m_social_category m;
     m_location := m_location m;
     m_rural_background := m_rural_background m;
     m_gender := m_gender m;
     m_pwd_status := m_pwd_status m;
     m_disability := m_disability m;
     m_first_generation_learner := m_first_generation_learner m;
     m_original_score := Some original_score;
     m_boosted_score := Some boosted_score;
     m_diversity_boost := Some boost_factor;
     m_boost_reasons := Some boost_reasons |}.

Definition apply_diversity_boosts (self : service)
    (matches : list match_record) : list match_record :=
  sort_by_score (boost_match self <$> matches).

(** ** [_group_matches_by_internship] *)

Definition group_matches_by_internship (matches : list match_record)
    : gmap string (list match_record) :=
  let internship_matches :=
    foldl (fun (acc : gmap string (list match_record)) m =>
             match m_internship_id m with
             | Some internship_id =>
                 if bool_decide (internship_id = ""%string) then acc
                 else <[internship_id :=
                          dict_get acc internship_id [] ++ [m]]> acc
             | None => acc
             end) ∅ matches in
  sort_by_score <$> internship_matches.

(** ** AllocationEngine: [_allocate_with_quotas] *)

Definition create_allocation_record (m : match_record) (category : string)
    (allocation_type : string) : allocation :=
  {| a_candidate_id := m_candidate_id m;
     a_internship_id := m_internship_id m;
     a_original_score := default (m_score m) (m_original_score m);
     a_final_score := m_score m;
     a_category := category;
     a_allocation_type := allocation_type;
     a_diversity_boost := default 0%Q (m_diversity_boost m);
     a_boost_reasons := default [] (m_boost_reasons m);
     a_rural_background := m_rural_background m |}.

(** The local variables of one run. *)
Record alloc_state : Type := {
  final_allocations : list allocation;
  quota_filled : gmap string Z;
  internship_capacity_used : gmap (option string) Z;
  allocated_candidates : gset (option string)
}.

(** [d[k] += 1] *)
Definition dict_incr {K : Type} `{Countable K} (d : gmap K Z) (k : K)
    : result (gmap K Z) :=
  v ← dict_index d k; Ok (<[k := v + 1]> d).

(** "Skip if candidate already allocated or internship full" *)
Definition skip_match (internships : list internship) (st : alloc_state)
    (m : match_record) : bool :=
  bool_decide (m_candidate_id m ∈ allocated_candidates st) ||
  (get_internship_capacity (m_internship_id m) internships <=?
   dict_get (internship_capacity_used st) (m_internship_id m) 0).

(** The block both phases end with: append the record and update the
    tracking; [quota_filled'] is the per-category counter after its
    increment.  The last statement, [internship_capacity_used[internship_id]
    += 1], raises [KeyError] for an identifier that is not in the input
    internship list. *)
Definition record_allocation (st : alloc_state) (m : match_record)
    (category allocation_type : string) (quota_filled' : gmap string Z)
    : result alloc_state :=
  used' ← dict_incr (internship_capacity_used st) (m_internship_id m);
  Ok {| final_allocations :=
          final_allocations st ++
          [create_allocation_record m category allocation_type];
        quota_filled := quota_filled';
        internship_capacity_used := used';
        allocated_candidates :=
          {[m_candidate_id m]} ∪ allocated_candidates st |}.

(** Phase 1, inner loop over the matches for one reserved category. *)
Fixpoint phase1_scan (internships : list internship) (category : string)
    (quota_limit : Z) (matches : list match_record) (st : alloc_state)
    : result alloc_state :=
  match matches with
  | [] => Ok st
  | m :: rest =>
      filled ← dict_index (quota_filled st) category;
      if quota_limit <=? filled then Ok st
      else if skip_match internships st m
      then phase1_scan internships category quota_limit rest st
      else if String.eqb (get_candidate_category m) category then
        quota_filled' ← dict_incr (quota_filled st) category;
        st' ← record_allocation st m category "quota" quota_filled';
        phase1_scan internships category quota_limit rest st'
      else phase1_scan internships category quota_limit rest st
  end.

Definition reserved_categories : list string :=
  ["sc"; "st"; "obc"; "ews"]%string.

(** Phase 1, outer loop over the reserved categories. *)
Fixpoint phase1 (internships : list internship) (quota_slots : gmap string Z)
    (matches : list match_record) (categories : list string)
    (st : alloc_state) : result alloc_state :=
  match categories with
  | [] => Ok st
  | category :: rest =>
      let quota_limit := dict_get quota_slots category 0 in
      st' ← phase1_scan internships category quota_limit matches st;
      phase1 internships quota_slots matches rest st'
  end.

(** Phase 2, the loop over the reserved categories looking for an unfilled
    slot; [Some] carries the updated counters ([allocated = True]). *)
Fixpoint fill_unfilled_quota (quota_filled0 quota_slots : gmap string Z)
    (categories : list string) : result (option (gmap string Z)) :=
  match categories with
  | [] => Ok None
  | category :: rest =>
      filled ← dict_index quota_filled0 category;
      slots ← dict_index quota_slots category;
      if filled <? slots then
        quota_filled' ← dict_incr quota_filled0 category;
        Ok (Some quota_filled')
      else fill_unfilled_quota quota_filled0 quota_slots rest
  end.

(** Phase 2, the body of the loop for one match. *)
Definition phase2_step (internships : list internship)
    (quota_slots : gmap string Z) (st : alloc_state) (m : match_record)
    : result alloc_state :=
  let general_quota := dict_get quota_slots "general"%string 0 in
  if skip_match internships st m then Ok st
  else
    let candidate_category := get_candidate_category m in
    try_general ←
      (if String.eqb candidate_category "general" then
         filled ← dict_index (quota_filled st) "general"%string;
         Ok (filled <? general_quota)
       else Ok false);
    if (try_general : bool) then
      quota_filled' ← dict_incr (quota_filled st) "general"%string;
      record_allocation st m candidate_category "general" quota_filled'
    else
      in_quota ← fill_unfilled_quota (quota_filled st) quota_slots
                                     reserved_categories;
      match in_quota with
      | Some quota_filled' =>
          record_allocation st m candidate_category "merit_in_quota"
                            quota_filled'
      | None =>
          filled ← dict_index (quota_filled st) "general"%string;
          if filled <? general_quota then
            quota_filled' ← dict_incr (quota_filled st) "general"%string;
            record_allocation st m candidate_category "merit" quota_filled'
          else Ok st
      end.

Fixpoint phase2 (internships : list internship) (quota_slots : gmap string Z)
    (matches : list match_record) (st : alloc_state) : result alloc_state :=
  match matches with
  | [] => Ok st
  | m :: rest =>
      st' ← phase2_step internships quota_slots st m;
      phase2 internships quota_slots rest st'
  end.

Record allocation_summary : Type := {
  total_allocated : Z;
  total_capacity : Z;
  summary_quota_slots : gmap string Z;
  capacity_utilization : gmap (option string) Z
}.

Record allocation_result : Type := {
  res_final_allocations : list allocation;
  quota_fulfillment : gmap string Z;
  summary : allocation_summary
}.

(** "Initialize capacity tracking" *)
Definition init_capacity_used (internships : list internship)
    : gmap (option string) Z :=
  foldl (fun (acc : gmap (option string) Z) i => <[i_id i := 0]> acc)
        ∅ internships.

Definition init_state (self : service) (internships : list internship)
    : alloc_state :=
  {| final_allocations := [];
     quota_filled := (fun _ => 0) <$> quotas self;
     internship_capacity_used := init_capacity_used internships;
     allocated_candidates := ∅ |}.

(** The [internship_matches] argument of the source is never read by the
    method and is not passed in the model. *)
Definition allocate_with_quotas (self : service)
    (matches : list match_record) (quota_slots : gmap string Z)
    (internships : list internship) : result allocation_result :=
  st1 ← phase1 internships quota_slots matches reserved_categories
               (init_state self internships);
  st2 ← phase2 internships quota_slots matches st1;
  Ok {| res_final_allocations := final_allocations st2;
        quota_fulfillment := quota_filled st2;
        summary := {|
          total_allocated := Z.of_nat (length (final_allocations st2));
          total_capacity := dict_sum (internship_capacity_used st2);
          summary_quota_slots := quota_slots;
          capacity_utilization := internship_capacity_used st2 |} |}.

(** ** ReportGenerator: [_generate_diversity_report] and
       [_check_quota_compliance] (counts only; the derived percentages are
       left out) *)

Record compliance_entry : Type := {
  expected_count : Z;
  actual_count : Z;
  compliant : bool
}.

Record diversity_report : Type := {
  report_total_allocated : Z;
  category_breakdown : gmap string Z;
  allocation_type_breakdown : gmap string Z;
  rural_count : Z;
  boosted_count : Z;
  quota_compliance : gmap string compliance_entry
}.

Inductive report : Type :=
  | NoAllocations
  | Report (r : diversity_report).

Definition check_quota_compliance (self : service)
    (breakdown : gmap string Z) (total : Z) : gmap string compliance_entry :=
  map_imap (fun category expected_percentage =>
    let actual := dict_get breakdown category 0 in
    let expected := py_int (inject_Z total * expected_percentage) in
    Some {| expected_count := expected;
            actual_count := actual;
            compliant :=
              Qle_bool (inject_Z expected * (9 # 10)) (inject_Z actual) |})
    (quotas self).

Definition count_by (key : allocation -> string) (l : list allocation)
    : gmap string Z :=
  foldl (fun (acc : gmap string Z) a =>
           <[key a := dict_get acc (key a) 0 + 1]> acc) ∅ l.

(** The method is written for a list of allocation records, and its only
    caller hands it the whole dict returned by [_allocate_with_quotas].
    Python accepts both, so the argument is a sum. *)
Inductive report_argument : Type :=
  | AllocationList (l : list allocation)
  | AllocationDict (d : allocation_result).

Definition generate_diversity_report (self : service)
    (allocations : report_argument) : result report :=
  match allocations with
  | AllocationList [] => Ok NoAllocations
  | AllocationList l =>
      let total := Z.of_nat (length l) in
      let breakdown := count_by a_category l in
      Ok (Report {|
        report_total_allocated := total;
        category_breakdown := breakdown;
        allocation_type_breakdown := count_by a_allocation_type l;
        rural_count :=
          Z.of_nat (length (filter (fun a => a_rural_background a = true) l));
        boosted_count :=
          Z.of_nat (length (filter
            (fun a => Qle_bool (a_diversity_boost a) 0 = false) l));
        quota_compliance := check_quota_compliance self breakdown total |})
  | AllocationDict _ =>
      (* The dict has three keys, so it is truthy; iterating it yields its
         keys, and [allocation.get] on a [str] raises. *)
      Err AttributeError
  end.

(** ** [apply_affirmative_action]

    The [logger.info] calls are kept as a trace, so that what ran before a
    failure is observable. *)

Inductive log_event : Type :=
  | LogApplying (n_matches : nat)
  | LogQuotaSlots (quota_slots : gmap string Z)
  | LogAllocationCompleted (n_allocated : nat).

Record affirmative_action_result : Type := {
  out_final_allocations : list allocation;
  out_quota_fulfillment : gmap string Z;
  out_diversity_report : report;
  out_allocation_summary : allocation_summary
}.

Definition apply_affirmative_action (self : service)
    (matches : list match_record) (internships : list internship)
    : list log_event * result affirmative_action_result :=
  let log := [LogApplying (length matches)] in
  let internship_matches := group_matches_by_internship matches in
  let total_capacity := foldr (fun i acc => capacity_of i + acc) 0 internships in
  match calculate_quota_slots self total_capacity with
  | Err e => (log, Err e)
  | Ok quota_slots =>
      let log := log ++ [LogQuotaSlots quota_slots] in
      let boosted_matches := apply_diversity_boosts self matches in
      match allocate_with_quotas self boosted_matches quota_slots internships
      with
      | Err e => (log, Err e)
      | Ok allocations =>
          match generate_diversity_report self (AllocationDict allocations)
          with
          | Err e => (log, Err e)
          | Ok diversity =>
              (log ++ [LogAllocationCompleted
                         (length (res_final_allocations allocations))],
               Ok {| out_final_allocations :=
                       res_final_allocations allocations;
                     out_quota_fulfillment := quota_fulfillment allocations;
                     out_diversity_report := diversity;
                     out_allocation_summary := summary allocations |})
          end
      end
  end.

(** ** ScoreCalculator: the weighted sum of [_calculate_real_match_score]
       and its salary component

    The skills, category and location components depend on helper tables
    and set operations that no property below reads; they enter the weighted
    sum as arguments. *)

(** [min(len(candidate_experience) / 3.0, 1.0) if candidate_experience
    else 0.5] *)
Definition experience_score (n_entries : nat) : Q :=
  match n_entries with
  | O => 1 # 2
  | _ => Qmin (inject_Z (Z.of_nat n_entries) / 3) 1
  end.

(** [min(internship.get('salary_max', 15000) / 30000.0, 1.0)] *)
Definition salary_score (salary_max : option Z) : Q :=
  Qmin (inject_Z (default 15000 salary_max) / 30000) 1.

Definition final_score
    (skills_score category_score location_score experience_score0
     salary_score0 : Q) : Q :=
  skills_score * (40 # 100) +
  category_score * (25 # 100) +
  location_score * (20 # 100) +
  experience_score0 * (10 # 100) +
  salary_score0 * (5 # 100).



(** ** Concrete inputs used below *)

Definition uniform_quotas : gmap string Q :=
  list_to_map
    [("general"%string, 2 # 10); ("sc"%string, 2 # 10);
     ("st"%string, 2 # 10); ("obc"%string, 2 # 10);
     ("ews"%string, 2 # 10)]%Q.

Definition skewed_quotas : gmap string Q :=
  list_to_map
    [("general"%string, 96 # 100); ("sc"%string, 1 # 100);
     ("st"%string, 1 # 100); ("obc"%string, 1 # 100);
     ("ews"%string, 1 # 100)]%Q.

(** The total of a plan, or the exception of the planner. *)
Definition planned_total (self : service) (total_capacity : Z) : result Z :=
  quota_slots ← calculate_quota_slots self total_capacity;
  Ok (dict_sum quota_slots).

Definition scenario_b_quotas : gmap string Q :=
  list_to_map [("general"%string, 5 # 10); ("sc"%string, 6 # 10)]%Q.

(** The four indicator checks of the booster with the reason each records
    and the weight each adds, in the order the source evaluates them. *)
Definition diversity_indicators (self : service) (m : match_record)
    : list (bool * (string * Q)) :=
  [ (m_rural_background m || is_rural_candidate m,
     ("Rural background"%string, boost_rural (diversity_boost self)));
    (is_female_candidate m,
     ("Gender diversity"%string, boost_female (diversity_boost self)));
    (is_pwd_candidate m,
     ("Person with disability"%string, boost_pwd (diversity_boost self)));
    (is_first_generation_candidate m,
     ("First-generation learner"%string,
      boost_first_generation (diversity_boost self))) ].

(** The indicators that apply to a match: reason and weight. *)
Definition applicable_boosts (self : service) (m : match_record)
    : list (string * Q) :=
  omap (fun x : bool * (string * Q) => if fst x then Some (snd x) else None)
       (diversity_indicators self m).

Definition qsum (l : list Q) : Q := foldr Qplus 0%Q l.

Definition barnala_match : match_record :=
  {| m_candidate_id := Some "cand-7"%string;
     m_internship_id := Some "int-1"%string;
     m_score := 97 # 100;
     m_social_category := ""%string;
     m_location := "Barnala village, Punjab"%string;
     m_rural_background := false;
     m_gender := "Female"%string;
     m_pwd_status := false;
     m_disability := false;
     m_first_generation_learner := false;
     m_original_score := None;
     m_boosted_score := None;
     m_diversity_boost := None;
     m_boost_reasons := None |}.

(** ** Vocabulary of the allocation properties *)

(** Number of allocation records for one internship identifier. *)
Definition count_for (internship_id : option string) (l : list allocation)
    : Z :=
  Z.of_nat (length (filter (fun a => a_internship_id a = internship_id) l)).

Definition all_categories : list string :=
  "general"%string :: reserved_categories.

(** A per-category dict that has the five categories of [__init__] among its
    keys (no method removes a key of [self.quotas]). *)
Definition has_categories (d : gmap string Z) : Prop :=
  forall category, category ∈ all_categories -> is_Some (d !! category).

(** The match names an internship of the input list. *)
Definition tracked (internships : list internship) (m : match_record) : Prop :=
  m_internship_id m ∈ (i_id <$> internships).

(** What every state of a run satisfies. *)
Record inv (internships : list internship) (st : alloc_state) : Prop := {
  inv_nodup : NoDup (a_candidate_id <$> final_allocations st);
  inv_allocated : forall a, a ∈ final_allocations st ->
    a_candidate_id a ∈ allocated_candidates st;
  inv_used : forall k v, internship_capacity_used st !! k = Some v ->
    v = count_for k (final_allocations st) /\
    v <= Z.max 0 (get_internship_capacity k internships);
  inv_sum : dict_sum (internship_capacity_used st) =
    Z.of_nat (length (final_allocations st));
  inv_dom : forall k, is_Some (internship_capacity_used st !! k) <->
    k ∈ (i_id <$> internships)
}.

(** The value of a computation that returned. *)
Definition value_or {A : Type} (dflt : A) (r : result A) : A :=
  match r with
  | Ok a => a
  | Err _ => dflt
  end.

Definition no_allocations : allocation_result :=
  {| res_final_allocations := [];
     quota_fulfillment := ∅;
     summary := {| total_allocated := 0; total_capacity := 0;
                   summary_quota_slots := ∅; capacity_utilization := ∅ |} |}.

Definition plain_match (candidate_id internship_id : string) (score : Q)
    (social_category : string) : match_record :=
  {| m_candidate_id := Some candidate_id;
     m_internship_id := Some internship_id;
     m_score := score;
     m_social_category := social_category;
     m_location := ""%string;
     m_rural_background := false;
     m_gender := ""%string;
     m_pwd_status := false;
     m_disability := false;
     m_first_generation_learner := false;
     m_original_score := None;
     m_boosted_score := None;
     m_diversity_boost := None;
     m_boost_reasons := None |}.

Definition one_slot_each : gmap string Z :=
  list_to_map
    [("general"%string, 1); ("sc"%string, 1); ("st"%string, 1);
     ("obc"%string, 1); ("ews"%string, 1)].

(** Scenario A of the specification: one internship with two seats and
    three candidates, in score order. *)
Definition scenario_a_internship : internship :=
  {| i_id := Some "int-1"%string; i_capacity := Some 2 |}.

Definition scenario_a_matches : list match_record :=
  [ plain_match "cand-a" "int-1" (90 # 100) "";
    plain_match "cand-b" "int-1" (80 # 100) "SC";
    plain_match "cand-c" "int-1" (70 # 100) "" ].

Definition scenario_a_result : allocation_result :=
  value_or no_allocations
    (allocate_with_quotas init_service scenario_a_matches one_slot_each
                          [scenario_a_internship]).

Definition returned {A : Type} (r : result A) : bool :=
  match r with
  | Ok _ => true
  | Err _ => false
  end.

(** Scenario D of the specification: an internship with capacity 0 next to
    one with a single seat. *)
Definition scenario_d_closed : internship :=
  {| i_id := Some "int-0"%string; i_capacity := Some 0 |}.

Definition scenario_d_internships : list internship :=
  [ scenario_d_closed; {| i_id := Some "int-1"%string; i_capacity := Some 1 |} ].

Definition scenario_d_matches : list match_record :=
  [ plain_match "cand-a" "int-0" (90 # 100) "";
    plain_match "cand-b" "int-1" (80 # 100) "" ].

Definition scenario_d_slots : gmap string Z :=
  value_or ∅ (calculate_quota_slots init_service 1).

Definition scenario_d_result : allocation_result :=
  value_or no_allocations
    (allocate_with_quotas init_service
       (apply_diversity_boosts init_service scenario_d_matches)
       scenario_d_slots scenario_d_internships).

(** A run in which a reserved seat is left after phase 1: three seats, an
    [obc] candidate who takes the [obc] seat, an [sc] candidate who takes
    the [sc] seat, and a second [obc] candidate. *)
Definition spill_internship : internship :=
  {| i_id := Some "int-1"%string; i_capacity := Some 3 |}.

Definition spill_candidate : match_record :=
  plain_match "cand-c" "int-1" (70 # 100) "OBC".

Definition spill_matches : list match_record :=
  [ plain_match "cand-a" "int-1" (90 # 100) "obc";
    plain_match "cand-b" "int-1" (80 # 100) "sc";
    spill_candidate ].

Definition spill_state : alloc_state :=
  value_or (init_state init_service [spill_internship])
    (phase1 [spill_internship] one_slot_each spill_matches
            reserved_categories (init_state init_service [spill_internship])).

(** The outcome is not a validation error ([ValueError] is the one the
    service raises for rejected input). *)
Definition not_rejected {A : Type} (r : result A) : Prop :=
  r <> Err ValueError.

(** Closed side conditions on concrete inputs. *)
Ltac solve_categories :=
  let c := fresh "c" in
  let Hc := fresh "Hc" in
  intros c Hc; unfold all_categories, reserved_categories in Hc;
  repeat (apply elem_of_cons in Hc as [->|Hc]; [vm_compute; eauto|]);
  inversion Hc.

Ltac solve_tracked :=
  repeat (apply Forall_cons_2;
          [unfold tracked; vm_compute; solve [repeat constructor]|]);
  apply Forall_nil_2.

(** ** Vocabulary of the further properties *)

(** Every configured boost weight is at least 0. *)
Definition nonneg_boosts (t : diversity_boost_table) : Prop :=
  (0 <= boost_rural t)%Q /\ (0 <= boost_female t)%Q /\
  (0 <= boost_pwd t)%Q /\ (0 <= boost_first_generation t)%Q.

(** [a] may stand before [b] in a list sorted by score, highest first. *)
Definition score_ge (a b : match_record) : Prop :=
  (m_score b <= m_score a)%Q.

Definition allocation_types : list string :=
  ["quota"; "general"; "merit_in_quota"; "merit"]%string.

(** How the allocation type of a record and its category tag go together. *)
Definition consistent_type (allocation_type category : string) : Prop :=
  allocation_type ∈ allocation_types /\
  category ∈ all_categories /\
  (allocation_type = "quota"%string -> category ∈ reserved_categories) /\
  (allocation_type = "general"%string -> category = "general"%string) /\
  (allocation_type = "merit"%string -> category ∈ reserved_categories).

(** What every state of a run satisfies beyond [inv]: where the records
    come from and what the per-category counters count.  [ms] is the list
    of matches the run scans. *)
Record accounted (quota_slots : gmap string Z) (ms : list match_record)
    (st : alloc_state) : Prop := {
  acc_from_match : forall a, a ∈ final_allocations st ->
    exists m, m ∈ ms /\
      a = create_allocation_record m (get_candidate_category m)
            (a_allocation_type a) /\
      is_Some (internship_capacity_used st !! m_internship_id m) /\
      consistent_type (a_allocation_type a) (a_category a);
  acc_sum : dict_sum (quota_filled st) =
    Z.of_nat (length (final_allocations st));
  acc_bound : forall c v, quota_filled st !! c = Some v ->
    0 <= v <= Z.max 0 (dict_get quota_slots c 0)
}.

(** Number of records of a list whose key is [k]. *)
Definition occurrences (key : allocation -> string) (k : string)
    (l : list allocation) : Z :=
  Z.of_nat (length (filter (fun a => key a = k) l)).

(** The matches of a list that name the internship [k]. *)
Definition matches_for (k : string) (matches : list match_record)
    : list match_record :=
  filter (fun m => m_internship_id m = Some k) matches.

(** The record that scenario A produces in phase 1. *)
Definition scenario_a_quota_record : allocation :=
  create_allocation_record (plain_match "cand-b" "int-1" (80 # 100) "SC")
    "sc" "quota".

(** ** ScoreCalculator: the components of [_calculate_real_match_score]

    The candidate's skill list is the list that [_extract_candidate_skills]
    returns, and [cp_experience] is the length of the experience list; both
    are inputs of the model.  The [except] branch of the method (a neutral
    score of 0.5) is reached only through a field of the wrong Python type,
    which the typed records exclude. *)

(** [s.split(sep)] for a one-character separator *)
Fixpoint split_on (sep : ascii) (s : string) : list string :=
  match s with
  | EmptyString => [EmptyString]
  | String c s' =>
      match split_on sep s' with
      | [] => [String c EmptyString]
      | piece :: rest =>
          if Ascii.eqb c sep then EmptyString :: piece :: rest
          else String c piece :: rest
      end
  end.

(** Truth value of a string: non-empty *)
Definition nonempty (s : string) : bool :=
  match s with
  | EmptyString => false
  | String _ _ => true
  end.

Record candidate_profile : Type := {
  cp_skills : list string;
  cp_location : string;
  cp_category : string;
  cp_experience : nat
}.

Record listing : Type := {
  ls_skills_required : list string;
  ls_location : string;
  ls_category : string;
  ls_remote_option : bool;
  ls_salary_max : option Z
}.

Definition related_groups : list (list string) :=
  [ ["software development"; "data science"; "programming"];
    ["marketing"; "digital marketing"; "social media"];
    ["design"; "ui"; "ux"; "graphic design"];
    ["finance"; "accounting"; "financial"] ]%string.

(** [_are_related_categories] *)
Definition are_related_categories (cat1 cat2 : string) : bool :=
  existsb (fun group =>
             existsb (fun cat => contains cat1 cat) group &&
             existsb (fun cat => contains cat2 cat) group)
          related_groups.

Definition indian_states : list (string * list string) :=
  [ ("karnataka", ["bangalore"; "bengaluru"; "mysore"]);
    ("maharashtra", ["mumbai"; "pune"; "nashik"]);
    ("delhi", ["delhi"; "new delhi"; "ncr"]);
    ("tamil nadu", ["chennai"; "coimbatore"]);
    ("telangana", ["hyderabad"; "secunderabad"]) ]%string.

(** [_same_state] *)
Definition same_state (loc1 loc2 : string) : bool :=
  existsb (fun entry =>
             existsb (fun city => contains loc1 city) (snd entry) &&
             existsb (fun city => contains loc2 city) (snd entry))
          indian_states.

(** "Skills matching": the share of the required skills, lower-cased, that
    the candidate has; the matched skills are a set, the required skills a
    list. *)
Definition skills_score (candidate_skills skills_required : list string)
    : Q :=
  let required_skills := lower <$> skills_required in
  match required_skills, candidate_skills with
  | [], _ => 0
  | _, [] => 0
  | _, _ =>
      let candidate_skills_lower := lower <$> candidate_skills in
      let matched_skills : gset string :=
        list_to_set candidate_skills_lower ∩ list_to_set required_skills in
      Qmin (inject_Z (Z.of_nat (size matched_skills)) /
            inject_Z (Z.of_nat (length required_skills))) 1
  end.

(** "Category matching", on the lower-cased categories *)
Definition category_score (candidate_category internship_category : string)
    : Q :=
  if nonempty candidate_category && nonempty internship_category then
    if contains internship_category candidate_category ||
       contains candidate_category internship_category
    then 1
    else if are_related_categories candidate_category internship_category
    then 7 # 10
    else 3 # 10
  else 0.

(** "Location matching", on the lower-cased locations *)
Definition location_score (candidate_location internship_location : string)
    (remote_option : bool) : Q :=
  if nonempty candidate_location && nonempty internship_location then
    if existsb (fun loc => contains internship_location loc)
               (split_on ","%char candidate_location)
    then 1
    else if same_state candidate_location internship_location
    then 6 # 10
    else 3 # 10
  else if remote_option then 8 # 10
  else 0.

(** The [overall_score] of [_calculate_real_match_score] *)
Definition calculate_real_match_score (candidate_data : candidate_profile)
    (internship0 : listing) : Q :=
  final_score
    (skills_score (cp_skills candidate_data)
                  (ls_skills_required internship0))
    (category_score (lower (cp_category candidate_data))
                    (lower (ls_category internship0)))
    (location_score (lower (cp_location candidate_data))
                    (lower (ls_location internship0))
                    (ls_remote_option internship0))
    (experience_score (cp_experience candidate_data))
    (salary_score (ls_salary_max internship0)).

Definition pune_candidate : candidate_profile :=
  {| cp_skills := ["Python"; "SQL"]%string;
     cp_location := "Pune,"%string;
     cp_category := "Data Science"%string;
     cp_experience := 1 |}.

Definition chennai_listing : listing :=
  {| ls_skills_required := ["python"; "sql"]%string;
     ls_location := "Chennai"%string;
     ls_category := "Programming"%string;
     ls_remote_option := false;
     ls_salary_max := Some 20000 |}.

(** ** The caller: [AllocationAPI.post] of [app/routes/matching_routes.py]

    The document store is outside the model: its two read operations, the
    order in which Python lists a [set], and [_store_allocations] are
    parameters.  A store operation answers [None] when it raises.  The
    request body is [None] when the request carries no JSON object, and
    otherwise holds the value of its [batch_id] key.  The resource builds
    its own [AffirmativeActionService()], so the service is the one of
    [__init__].  The answer is the HTTP status with the identifier of the
    stored allocation, if one was stored. *)

Section allocation_api.
Variable query_documents : option string -> option (list match_record).
Variable get_document : option string -> option (option internship).
Variable set_order : list (option string) -> list (option string).
Variable store_allocations : affirmative_action_result -> option string.

(** "Get internship details for capacity information" *)
Fixpoint fetch_internships (internship_ids : list (option string))
    : option (list internship) :=
  match internship_ids with
  | [] => Some []
  | internship_id :: rest =>
      match get_document internship_id with
      | None => None
      | Some document =>
          match fetch_internships rest with
          | None => None
          | Some internships =>
              Some (match document with
                    | Some i => i :: internships
                    | None => internships
                    end)
          end
      end
  end.

Definition allocation_post (body : option (option string))
    : Z * option string :=
  match body with
  | None => (500, None)
  | Some batch_id =>
      let batch_filter :=
        match batch_id with
        | Some b => if nonempty b then Some b else None
        | None => None
        end in
      match query_documents batch_filter with
      | None => (500, None)
      | Some [] => (400, None)
      | Some matches =>
          let internship_ids := set_order (m_internship_id <$> matches) in
          match fetch_internships internship_ids with
          | None => (500, None)
          | Some internships =>
              match snd (apply_affirmative_action init_service matches
                           internships) with
              | Err _ => (500, None)
              | Ok allocation_result =>
                  match store_allocations allocation_result with
                  | None => (500, None)
                  | Some allocation_id => (200, Some allocation_id)
                  end
              end
          end
      end
  end.
End allocation_api.

(** Scenario E of the specification, in small: general candidates only, in
    score order, for the internship of scenario A. *)
Definition scenario_e_matches : list match_record :=
  [ plain_match "cand-a" "int-1" (90 # 100) "";
    plain_match "cand-c" "int-1" (70 # 100) "General" ].

(** * Properties *)

(** ** Sums over dicts *)

Section dict_sum.
Context {K : Type} `{Countable K}.

Lemma dict_sum_empty : dict_sum (∅ : gmap K Z) = 0.
Proof. unfold dict_sum. apply map_fold_empty. Qed.

Lemma dict_sum_insert_fresh (d : gmap K Z) (k : K) (v : Z) :
  d !! k = None -> dict_sum (<[k := v]> d) = v + dict_sum d.
Proof.
  intros Hk. unfold dict_sum.
  apply (map_fold_insert_L (fun _ v acc => v + acc)); [|exact Hk].
  intros; lia.
Qed.

Lemma dict_sum_delete (d : gmap K Z) (k : K) (v : Z) :
  d !! k = Some v -> dict_sum d = v + dict_sum (delete k d).
Proof.
  intros Hk. unfold dict_sum.
  apply (map_fold_delete_L (fun _ v acc => v + acc)); [|exact Hk].
  intros; lia.
Qed.

(** Overwriting a present key moves the sum by the difference. *)
Lemma dict_sum_insert_present (d : gmap K Z) (k : K) (v w : Z) :
  d !! k = Some v -> dict_sum (<[k := w]> d) = dict_sum d - v + w.
Proof.
  intros Hk. rewrite <- (insert_delete_eq d k w).
  rewrite dict_sum_insert_fresh by apply lookup_delete_eq.
  rewrite (dict_sum_delete d k v Hk). lia.
Qed.

Lemma dict_sum_ge_size (d : gmap K Z) :
  (forall k v, d !! k = Some v -> 1 <= v) ->
  Z.of_nat (size d) <= dict_sum d.
Proof.
  induction d as [|k v d Hk IH] using map_ind; intros Hall.
  - rewrite map_size_empty, dict_sum_empty. lia.
  - rewrite map_size_insert_None, dict_sum_insert_fresh by exact Hk.
    assert (1 <= v) by (apply (Hall k); apply lookup_insert_eq).
    assert (Z.of_nat (size d) <= dict_sum d).
    { apply IH. intros j w Hj. apply (Hall j).
      rewrite lookup_insert_ne; [exact Hj|]. intros ->. congruence. }
    lia.
Qed.

Lemma dict_incr_sum (d d' : gmap K Z) (k : K) :
  dict_incr d k = Ok d' -> dict_sum d' = dict_sum d + 1.
Proof.
  unfold dict_incr, dict_index. destruct (d !! k) as [v|] eqn:Hk; simpl.
  - intros [= <-]. rewrite (dict_sum_insert_present d k v) by exact Hk. lia.
  - discriminate.
Qed.

Lemma dict_incr_lookup (d d' : gmap K Z) (k : K) :
  dict_incr d k = Ok d' ->
  exists v, d !! k = Some v /\ d' = <[k := v + 1]> d.
Proof.
  unfold dict_incr, dict_index. destruct (d !! k) as [v|]; simpl.
  - intros [= <-]. eauto.
  - discriminate.
Qed.

Lemma dict_incr_dom (d d' : gmap K Z) (k j : K) :
  dict_incr d k = Ok d' -> is_Some (d' !! j) <-> is_Some (d !! j).
Proof.
  intros (v & Hv & ->)%dict_incr_lookup.
  destruct (decide (k = j)) as [->|Hne].
  - rewrite lookup_insert_eq, Hv. split; eauto.
  - rewrite lookup_insert_ne by exact Hne. reflexivity.
Qed.
End dict_sum.

(** ** QuotaPlanner *)

Lemma initial_slots_ge_1 (c : Z) (p : Q) : 1 <= initial_slots c p.
Proof. unfold initial_slots. lia. Qed.

Lemma reduced_slots_ge_1 (f : Q) (s : Z) : 1 <= reduced_slots f s.
Proof. unfold reduced_slots. lia. Qed.

(** Every category of the plan gets at least one slot, whatever the
    capacity. *)
Lemma calculate_quota_slots_ge_1 (self : service) (total_capacity : Z)
    (quota_slots : gmap string Z) :
  calculate_quota_slots self total_capacity = Ok quota_slots ->
  forall category slots, quota_slots !! category = Some slots -> 1 <= slots.
Proof.
  unfold calculate_quota_slots.
  destruct (_ <? _); [destruct (_ =? _); [discriminate|]|];
    intros [= <-] category slots; rewrite !lookup_fmap;
    repeat (destruct (_ !! category); simpl; [|try discriminate]);
    intros [= <-]; auto using initial_slots_ge_1, reduced_slots_ge_1.
Qed.

Lemma calculate_quota_slots_dom (self : service) (total_capacity : Z)
    (quota_slots : gmap string Z) (category : string) :
  calculate_quota_slots self total_capacity = Ok quota_slots ->
  is_Some (quota_slots !! category) <-> is_Some (quotas self !! category).
Proof.
  unfold calculate_quota_slots.
  destruct (_ <? _); [destruct (_ =? _); [discriminate|]|];
    intros [= <-]; rewrite !lookup_fmap, ?fmap_is_Some; reflexivity.
Qed.

(** The plan never has fewer slots than categories: with a capacity below
    the number of categories the total exceeds the capacity. *)
Lemma calculate_quota_slots_total_ge_categories (self : service)
    (total_capacity : Z) (quota_slots : gmap string Z) :
  calculate_quota_slots self total_capacity = Ok quota_slots ->
  Z.of_nat (size (quotas self)) <= dict_sum quota_slots.
Proof.
  intros Hq.
  assert (size quota_slots = size (quotas self)) as <-.
  { revert Hq. unfold calculate_quota_slots.
    destruct (_ <? _); [destruct (_ =? _); [discriminate|]|];
      intros [= <-]; rewrite !map_size_fmap; reflexivity. }
  apply dict_sum_ge_size. eauto using calculate_quota_slots_ge_1.
Qed.

(** C1.  The plan can exceed the capacity.  Both tables below are accepted
    by [update_quotas] (they sum to 1.0).  With the uniform table and one
    seat the plan has five slots; with the table that gives 0.96 to
    [general] and five seats (as many seats as categories) the first pass
    plans 4+1+1+1+1 = 8 slots and the reduction by 5/8 leaves 2+1+1+1+1 = 6
    slots, one more than the capacity: re-applying [max(1, ...)] after the
    reduction undoes the bound the reduction is there to ensure. *)
Theorem quota_plan_exceeds_capacity :
  update_quotas init_service uniform_quotas =
    (fst (update_quotas init_service uniform_quotas), Ok tt) /\
  planned_total (fst (update_quotas init_service uniform_quotas)) 1 = Ok 5 /\
  update_quotas init_service skewed_quotas =
    (fst (update_quotas init_service skewed_quotas), Ok tt) /\
  planned_total (fst (update_quotas init_service skewed_quotas)) 5 = Ok 6.
Proof. repeat split; vm_compute; reflexivity. Qed.

(** ** Configuration updates *)



(** ** DiversityBooster *)

Lemma insert_by_score_perm (x : match_record) (l : list match_record) :
  insert_by_score x l ≡ₚ x :: l.
Proof.
  induction l as [|y l IH]; simpl; [reflexivity|].
  destruct (Qle_bool _ _); [reflexivity|].
  rewrite IH. apply Permutation_swap.
Qed.

Lemma sort_by_score_perm (l : list match_record) : sort_by_score l ≡ₚ l.
Proof.
  induction l as [|x l IH]; simpl; [reflexivity|].
  rewrite insert_by_score_perm, IH. reflexivity.
Qed.

Lemma apply_diversity_boosts_elem (self : service)
    (matches : list match_record) (bm : match_record) :
  bm ∈ apply_diversity_boosts self matches <->
  exists m, bm = boost_match self m /\ m ∈ matches.
Proof.
  unfold apply_diversity_boosts.
  rewrite sort_by_score_perm. apply list_elem_of_fmap.
Qed.

Lemma boost_match_spec (self : service) (m : match_record) :
  exists boosted total,
    m_candidate_id (boost_match self m) = m_candidate_id m /\
    m_internship_id (boost_match self m) = m_internship_id m /\
    m_boosted_score (boost_match self m) = Some boosted /\
    m_score (boost_match self m) = boosted /\
    m_diversity_boost (boost_match self m) = Some total /\
    (total == qsum (snd <$> applicable_boosts self m))%Q /\
    (boosted ==
       Qmin (m_score m + qsum (snd <$> applicable_boosts self m)) 1)%Q /\
    m_original_score (boost_match self m) = Some (m_score m) /\
    m_boost_reasons (boost_match self m) =
      Some (fst <$> applicable_boosts self m).
Proof.
  unfold boost_match, applicable_boosts, diversity_indicators.
  destruct (m_rural_background m || is_rural_candidate m),
    (is_female_candidate m), (is_pwd_candidate m),
    (is_first_generation_candidate m);
    cbn [m_boosted_score m_score m_diversity_boost m_original_score
         m_boost_reasons m_candidate_id m_internship_id];
    (do 2 eexists;
     split; [reflexivity|]; split; [reflexivity|];
     split; [reflexivity|]; split; [reflexivity|]; split; [reflexivity|];
     split; [cbn; ring|];
     split; [apply Q.min_compat; [cbn; ring | reflexivity]|];
     split; reflexivity).
Qed.

(** C5.  Every record produced by [_apply_diversity_boosts] is the boosted
    copy of an input match: its boosted score (also stored as [score]) is
    [min(raw_score + total_boost, 1.0)], where [total_boost] is the sum of
    the configured weights of exactly the indicators that apply, and
    [boost_reasons] lists exactly those indicators, whether or not the
    clamp cuts the sum.  The configured weights are 0.05, 0.03, 0.05 and
    0.04 after [__init__]. *)
Theorem boosted_score_is_clamped_sum (self : service)
    (matches : list match_record) (bm : match_record) :
  bm ∈ apply_diversity_boosts self matches ->
  diversity_boost init_service =
    {| boost_rural := 5 # 100; boost_female := 3 # 100;
       boost_pwd := 5 # 100; boost_first_generation := 4 # 100 |} /\
  exists m boosted total,
    m ∈ matches /\
    m_candidate_id bm = m_candidate_id m /\
    m_internship_id bm = m_internship_id m /\
    m_original_score bm = Some (m_score m) /\
    m_boosted_score bm = Some boosted /\
    m_score bm = boosted /\
    m_diversity_boost bm = Some total /\
    (total == qsum (snd <$> applicable_boosts self m))%Q /\
    (boosted ==
       Qmin (m_score m + qsum (snd <$> applicable_boosts self m)) 1)%Q /\
    m_boost_reasons bm = Some (fst <$> applicable_boosts self m).
Proof.
  intros (m & -> & Hm)%apply_diversity_boosts_elem.
  split; [reflexivity|].
  destruct (boost_match_spec self m)
    as (boosted & total & Hc & Hi & Hb & Hs & Hd & Ht & Hmin & Ho & Hr).
  exists m, boosted, total.
  repeat (split; [first [assumption | reflexivity]|]). assumption.
Qed.

Lemma boosted_score_is_clamped_sum_witness :
  exists m boosted total,
    m ∈ [barnala_match] /\
    m_candidate_id (boost_match init_service barnala_match) =
      m_candidate_id m /\
    m_internship_id (boost_match init_service barnala_match) =
      m_internship_id m /\
    m_original_score (boost_match init_service barnala_match) =
      Some (m_score m) /\
    m_boosted_score (boost_match init_service barnala_match) =
      Some boosted /\
    m_score (boost_match init_service barnala_match) = boosted /\
    m_diversity_boost (boost_match init_service barnala_match) =
      Some total /\
    (total == qsum (snd <$> applicable_boosts init_service m))%Q /\
    (boosted ==
       Qmin (m_score m + qsum (snd <$> applicable_boosts init_service m)) 1)%Q /\
    m_boost_reasons (boost_match init_service barnala_match) =
      Some (fst <$> applicable_boosts init_service m).
Proof.
  apply (boosted_score_is_clamped_sum init_service [barnala_match]
           (boost_match init_service barnala_match)).
  vm_compute. left.
Defined.

(** Scenario C of the specification, with the clamp active: the raw score
    0.97 plus the rural and the gender boost would be 1.05; the stored score
    is 1.0 and both reasons are recorded. *)
Example barnala_village_boost :
  m_boost_reasons (boost_match init_service barnala_match) =
    Some ["Rural background"; "Gender diversity"]%string /\
  (m_score (boost_match init_service barnala_match) == 1)%Q /\
  m_diversity_boost (boost_match init_service barnala_match) =
    Some ((0 + (5 # 100)) + (3 # 100))%Q.
Proof. repeat split. Qed.

(** ** ScoreCalculator: salary attractiveness *)






(** ** AllocationEngine: the invariant of a run *)

Lemma bind_Ok {A B : Type} (m : result A) (k : A -> result B) (b : B) :
  m ≫= k = Ok b -> exists a, m = Ok a /\ k a = Ok b.
Proof. destruct m; simpl; [eauto|discriminate]. Qed.

Lemma dict_index_Ok {K : Type} `{Countable K} {V : Type}
    (d : gmap K V) (k : K) (v : V) :
  dict_index d k = Ok v <-> d !! k = Some v.
Proof.
  unfold dict_index. destruct (d !! k); split; intros; simplify_eq; done.
Qed.

Lemma dict_sum_zero {K : Type} `{Countable K} (d : gmap K Z) :
  (forall k v, d !! k = Some v -> v = 0) -> dict_sum d = 0.
Proof.
  induction d as [|k v d Hk IH] using map_ind; intros Hall.
  - apply dict_sum_empty.
  - rewrite dict_sum_insert_fresh by exact Hk.
    rewrite (Hall k v) by apply lookup_insert_eq.
    rewrite IH; [reflexivity|].
    intros j w Hj. apply (Hall j).
    rewrite lookup_insert_ne; [exact Hj|]. intros ->. congruence.
Qed.

Lemma count_for_snoc (k : option string) (l : list allocation)
    (a : allocation) :
  count_for k (l ++ [a]) =
  count_for k l + (if decide (a_internship_id a = k) then 1 else 0).
Proof.
  unfold count_for. rewrite filter_app, length_app, filter_cons, filter_nil.
  destruct (decide _); simpl; lia.
Qed.

Lemma init_capacity_used_lookup (internships : list internship)
    (k : option string) :
  init_capacity_used internships !! k =
  if decide (k ∈ (i_id <$> internships)) then Some 0 else None.
Proof.
  unfold init_capacity_used.
  assert (forall (l : list internship) (acc : gmap (option string) Z),
    foldl (fun (acc : gmap (option string) Z) i => <[i_id i := 0]> acc)
          acc l !! k =
    if decide (k ∈ (i_id <$> l)) then Some 0 else acc !! k) as Hgen.
  { induction l as [|i l IH]; intros acc; cbn [foldl].
    - rewrite decide_False; [reflexivity|]. rewrite fmap_nil. inversion 1.
    - rewrite IH. rewrite fmap_cons.
      destruct (decide (k ∈ i_id <$> l)) as [Hin|Hnin].
      + rewrite decide_True by (right; exact Hin). reflexivity.
      + destruct (decide (i_id i = k)) as [<-|Hne].
        * rewrite decide_True by left. apply lookup_insert_eq.
        * rewrite decide_False.
          -- apply lookup_insert_ne. exact Hne.
          -- intros [->|]%elem_of_cons; congruence. }
  rewrite Hgen. destruct (decide _); [reflexivity|apply lookup_empty].
Qed.

Lemma init_state_inv (self : service) (internships : list internship) :
  inv internships (init_state self internships).
Proof.
  split; simpl.
  - constructor.
  - intros a Ha. inversion Ha.
  - intros k v. rewrite init_capacity_used_lookup.
    destruct (decide _); [|discriminate]. intros [= <-].
    unfold count_for; simpl. split; lia.
  - apply dict_sum_zero. intros k v. rewrite init_capacity_used_lookup.
    destruct (decide _); congruence.
  - intros k. rewrite init_capacity_used_lookup.
    destruct (decide _) as [Hin|Hnin]; split; intros Hx; eauto.
    + destruct Hx; discriminate.
    + contradiction.
Qed.

(** Appending a record for a match that the guard of both phases lets
    through keeps the invariant. *)
Lemma record_allocation_inv (internships : list internship)
    (st st' : alloc_state) (m : match_record)
    (category allocation_type : string) (quota_filled' : gmap string Z) :
  inv internships st ->
  skip_match internships st m = false ->
  record_allocation st m category allocation_type quota_filled' = Ok st' ->
  inv internships st'.
Proof.
  intros [Hnd Hal Hused Hsum Hdom] Hskip Hrec.
  unfold skip_match in Hskip. apply orb_false_iff in Hskip as [Hc Hcap].
  apply bool_decide_eq_false in Hc. apply Z.leb_gt in Hcap.
  unfold record_allocation in Hrec.
  apply bind_Ok in Hrec as (used' & Hincr & [= <-]).
  pose proof (dict_incr_sum _ _ _ Hincr) as Hsum'.
  pose proof (fun j => dict_incr_dom _ _ _ j Hincr) as Hdom'.
  apply dict_incr_lookup in Hincr as (v & Hv & ->).
  unfold dict_get in Hcap. rewrite Hv in Hcap. simpl in Hcap.
  split; simpl.
  - rewrite fmap_app. apply NoDup_app. split; [exact Hnd|]. split.
    + intros cid Hin Hin'. apply list_elem_of_singleton in Hin'. subst cid.
      apply list_elem_of_fmap in Hin as (a & Ha & Hin).
      apply Hc. simpl in Ha. rewrite Ha. apply Hal. exact Hin.
    + apply NoDup_singleton.
  - intros a [Ha|Ha]%elem_of_app.
    + apply elem_of_union_r. apply Hal. exact Ha.
    + apply list_elem_of_singleton in Ha. subst a. simpl.
      apply elem_of_union_l. apply elem_of_singleton. reflexivity.
  - intros k w. rewrite count_for_snoc. simpl.
    destruct (decide (m_internship_id m = k)) as [<-|Hne].
    + rewrite lookup_insert_eq. intros [= <-].
      destruct (Hused _ _ Hv) as [-> _]. split; lia.
    + rewrite lookup_insert_ne by exact Hne. intros Hk.
      destruct (Hused _ _ Hk) as [-> Hle]. split; [lia|exact Hle].
  - rewrite Hsum', Hsum, length_app. simpl. lia.
  - intros k. rewrite Hdom'. apply Hdom.
Qed.

Lemma phase1_scan_inv (internships : list internship) (category : string)
    (quota_limit : Z) (matches : list match_record) :
  forall st st',
    inv internships st ->
    phase1_scan internships category quota_limit matches st = Ok st' ->
    inv internships st'.
Proof.
  induction matches as [|m rest IH]; intros st st' Hinv Hrun; simpl in Hrun.
  - injection Hrun as <-. exact Hinv.
  - apply bind_Ok in Hrun as (filled & _ & Hrun).
    destruct (quota_limit <=? filled); [injection Hrun as <-; exact Hinv|].
    destruct (skip_match internships st m) eqn:Hskip; [eauto|].
    destruct (String.eqb _ _); [|eauto].
    apply bind_Ok in Hrun as (qf' & _ & Hrun).
    apply bind_Ok in Hrun as (st1 & Hrec & Hrun).
    eauto using record_allocation_inv.
Qed.

Lemma phase1_inv (internships : list internship)
    (quota_slots : gmap string Z) (matches : list match_record)
    (categories : list string) :
  forall st st',
    inv internships st ->
    phase1 internships quota_slots matches categories st = Ok st' ->
    inv internships st'.
Proof.
  induction categories as [|c rest IH]; intros st st' Hinv Hrun;
    simpl in Hrun.
  - injection Hrun as <-. exact Hinv.
  - apply bind_Ok in Hrun as (st1 & Hscan & Hrun).
    eauto using phase1_scan_inv.
Qed.

Lemma phase2_step_inv (internships : list internship)
    (quota_slots : gmap string Z) (st st' : alloc_state) (m : match_record) :
  inv internships st ->
  phase2_step internships quota_slots st m = Ok st' ->
  inv internships st'.
Proof.
  intros Hinv Hrun. unfold phase2_step in Hrun.
  destruct (skip_match internships st m) eqn:Hskip;
    [injection Hrun as <-; exact Hinv|].
  apply bind_Ok in Hrun as (try_general & _ & Hrun).
  destruct try_general.
  - apply bind_Ok in Hrun as (qf' & _ & Hrun).
    eauto using record_allocation_inv.
  - apply bind_Ok in Hrun as ([qf'|] & _ & Hrun);
      [eauto using record_allocation_inv|].
    apply bind_Ok in Hrun as (filled & _ & Hrun).
    destruct (filled <? _); [|injection Hrun as <-; exact Hinv].
    apply bind_Ok in Hrun as (qf' & _ & Hrun).
    eauto using record_allocation_inv.
Qed.

Lemma phase2_inv (internships : list internship)
    (quota_slots : gmap string Z) (matches : list match_record) :
  forall st st',
    inv internships st ->
    phase2 internships quota_slots matches st = Ok st' ->
    inv internships st'.
Proof.
  induction matches as [|m rest IH]; intros st st' Hinv Hrun; simpl in Hrun.
  - injection Hrun as <-. exact Hinv.
  - apply bind_Ok in Hrun as (st1 & Hstep & Hrun).
    eauto using phase2_step_inv.
Qed.

(** A run that returns ends in a state that satisfies the invariant, and
    the returned dict is read off that state. *)
Lemma allocate_with_quotas_inv (self : service)
    (matches : list match_record) (quota_slots : gmap string Z)
    (internships : list internship) (r : allocation_result) :
  allocate_with_quotas self matches quota_slots internships = Ok r ->
  exists st,
    inv internships st /\
    res_final_allocations r = final_allocations st /\
    quota_fulfillment r = quota_filled st /\
    total_allocated (summary r) = Z.of_nat (length (final_allocations st)) /\
    total_capacity (summary r) = dict_sum (internship_capacity_used st) /\
    capacity_utilization (summary r) = internship_capacity_used st.
Proof.
  unfold allocate_with_quotas. intros Hrun.
  apply bind_Ok in Hrun as (st1 & H1 & Hrun).
  apply bind_Ok in Hrun as (st2 & H2 & [= <-]).
  exists st2. simpl. split; [|repeat split].
  eapply phase2_inv; [|exact H2].
  eapply phase1_inv; [|exact H1].
  apply init_state_inv.
Qed.

Lemma get_internship_capacity_same (internships : list internship)
    (i : internship) :
  i ∈ internships ->
  (forall j, j ∈ internships -> i_id j = i_id i ->
             capacity_of j = capacity_of i) ->
  get_internship_capacity (i_id i) internships = capacity_of i.
Proof.
  induction internships as [|j rest IH]; intros Hin Hsame.
  - inversion Hin.
  - simpl. destruct (bool_decide (i_id j = i_id i)) eqn:Hj.
    + apply bool_decide_eq_true in Hj. apply Hsame; [left|exact Hj].
    + apply bool_decide_eq_false in Hj.
      apply elem_of_cons in Hin as [->|Hin]; [congruence|].
      apply IH; [exact Hin|]. intros j' Hj'. apply Hsame. right. exact Hj'.
Qed.

(** The count of records of a tracked internship never passes the capacity
    that [_get_internship_capacity] resolves for its identifier. *)
Lemma allocate_with_quotas_count (self : service)
    (matches : list match_record) (quota_slots : gmap string Z)
    (internships : list internship) (r : allocation_result)
    (k : option string) :
  allocate_with_quotas self matches quota_slots internships = Ok r ->
  k ∈ (i_id <$> internships) ->
  count_for k (res_final_allocations r) <=
  Z.max 0 (get_internship_capacity k internships).
Proof.
  intros (st & [_ _ Hused _ Hdom] & -> & _)%allocate_with_quotas_inv Hk.
  apply Hdom in Hk as [v Hv].
  destruct (Hused k v Hv) as [<- Hle]. exact Hle.
Qed.

(** C2.  In the output of a run no candidate identifier occurs in two
    allocation records, whichever phase produced them. *)
Theorem no_candidate_allocated_twice (self : service)
    (matches : list match_record) (quota_slots : gmap string Z)
    (internships : list internship) (r : allocation_result) :
  allocate_with_quotas self matches quota_slots internships = Ok r ->
  NoDup (a_candidate_id <$> res_final_allocations r).
Proof.
  intros (st & [Hnd _ _ _ _] & -> & _)%allocate_with_quotas_inv. exact Hnd.
Qed.

Lemma no_candidate_allocated_twice_witness :
  NoDup (a_candidate_id <$> res_final_allocations scenario_a_result).
Proof.
  apply (no_candidate_allocated_twice init_service scenario_a_matches
           one_slot_each [scenario_a_internship]).
  vm_compute. reflexivity.
Defined.



(** Scenario A: the [sc] candidate takes the reserved seat in phase 1, the
    best general candidate the general seat in phase 2, and the third
    candidate finds the internship full. *)
Example scenario_a_allocations :
  (fun a => (a_candidate_id a, a_category a, a_allocation_type a)) <$>
    res_final_allocations scenario_a_result =
  [ (Some "cand-b", "sc", "quota"); (Some "cand-a", "general", "general") ]%string.
Proof. vm_compute. reflexivity. Qed.

(** ** AllocationEngine: when a run returns *)

Lemma has_categories_insert (d : gmap string Z) (c : string) (v : Z) :
  has_categories d -> has_categories (<[c := v]> d).
Proof.
  intros Hd category Hin. apply lookup_insert_is_Some'. right. auto.
Qed.

Lemma has_categories_fmap {A : Type} (f : A -> Z) (d : gmap string A) :
  (forall category, category ∈ all_categories -> is_Some (d !! category)) ->
  has_categories (f <$> d).
Proof.
  intros Hd category Hin. rewrite lookup_fmap, fmap_is_Some. auto.
Qed.

Lemma dict_incr_has_categories (d : gmap string Z) (c : string) :
  has_categories d -> c ∈ all_categories ->
  exists v, d !! c = Some v /\ dict_incr d c = Ok (<[c := v + 1]> d) /\
            has_categories (<[c := v + 1]> d).
Proof.
  intros Hd Hc. destruct (Hd c Hc) as [v Hv]. exists v.
  split; [exact Hv|]. split; [|apply has_categories_insert; exact Hd].
  unfold dict_incr, dict_index. rewrite Hv. reflexivity.
Qed.

Lemma record_allocation_ok (internships : list internship)
    (st : alloc_state) (m : match_record) (category allocation_type : string)
    (quota_filled' : gmap string Z) :
  inv internships st -> tracked internships m ->
  exists st',
    record_allocation st m category allocation_type quota_filled' = Ok st' /\
    quota_filled st' = quota_filled'.
Proof.
  intros Hinv Htr. apply (inv_dom _ _ Hinv) in Htr as [v Hv].
  unfold record_allocation, dict_incr, dict_index. rewrite Hv. simpl.
  eexists. split; reflexivity.
Qed.

Lemma phase1_scan_ok (internships : list internship) (category : string)
    (quota_limit : Z) (matches : list match_record) :
  category ∈ all_categories ->
  Forall (tracked internships) matches ->
  forall st,
    inv internships st -> has_categories (quota_filled st) ->
    exists st',
      phase1_scan internships category quota_limit matches st = Ok st' /\
      inv internships st' /\ has_categories (quota_filled st').
Proof.
  intros Hc Htr. induction Htr as [|m rest Hm _ IH]; intros st Hinv Hcat.
  - exists st. simpl. auto.
  - simpl.
    destruct (dict_incr_has_categories _ _ Hcat Hc) as (v & Hv & Hincr & Hcat').
    unfold dict_index at 1. rewrite Hv. simpl.
    destruct (quota_limit <=? v); [exists st; auto|].
    destruct (skip_match internships st m) eqn:Hskip; [auto|].
    destruct (String.eqb _ _); [|auto].
    rewrite Hincr. simpl.
    destruct (record_allocation_ok internships st m category "quota"
                (<[category := v + 1]> (quota_filled st)) Hinv Hm)
      as (st1 & Hrec & Hqf).
    rewrite Hrec. simpl. apply IH.
    + eapply record_allocation_inv; eauto.
    + rewrite Hqf. exact Hcat'.
Qed.

Lemma phase1_ok (internships : list internship)
    (quota_slots : gmap string Z) (matches : list match_record)
    (categories : list string) :
  categories ⊆ all_categories ->
  Forall (tracked internships) matches ->
  forall st,
    inv internships st -> has_categories (quota_filled st) ->
    exists st',
      phase1 internships quota_slots matches categories st = Ok st' /\
      inv internships st' /\ has_categories (quota_filled st').
Proof.
  intros Hsub Htr.
  induction categories as [|c rest IH]; intros st Hinv Hcat.
  - exists st. simpl. auto.
  - simpl.
    destruct (phase1_scan_ok internships c (dict_get quota_slots c 0)
                matches) with (st := st) as (st1 & Hscan & Hinv1 & Hcat1);
      [apply Hsub; left|exact Htr|exact Hinv|exact Hcat|].
    rewrite Hscan. simpl. apply IH; [|exact Hinv1|exact Hcat1].
    intros x Hx. apply Hsub. right. exact Hx.
Qed.

Lemma fill_unfilled_quota_ok (quota_filled0 quota_slots : gmap string Z)
    (categories : list string) :
  has_categories quota_filled0 -> has_categories quota_slots ->
  categories ⊆ all_categories ->
  exists r,
    fill_unfilled_quota quota_filled0 quota_slots categories = Ok r /\
    forall quota_filled', r = Some quota_filled' ->
                          has_categories quota_filled'.
Proof.
  intros Hf Hs. induction categories as [|c rest IH]; intros Hsub.
  - exists None. simpl. split; [reflexivity|discriminate].
  - simpl.
    assert (c ∈ all_categories) as Hc by (apply Hsub; left).
    destruct (dict_incr_has_categories _ _ Hf Hc) as (v & Hv & Hincr & Hcat').
    destruct (Hs c Hc) as [s Hsv].
    unfold dict_index at 1 2. rewrite Hv, Hsv. simpl.
    destruct (v <? s).
    + rewrite Hincr. simpl. eexists. split; [reflexivity|].
      intros ? [= <-]. exact Hcat'.
    + apply IH. intros x Hx. apply Hsub. right. exact Hx.
Qed.

Lemma phase2_step_ok (internships : list internship)
    (quota_slots : gmap string Z) (st : alloc_state) (m : match_record) :
  has_categories quota_slots -> tracked internships m ->
  inv internships st -> has_categories (quota_filled st) ->
  exists st',
    phase2_step internships quota_slots st m = Ok st' /\
    inv internships st' /\ has_categories (quota_filled st').
Proof.
  intros Hs Hm Hinv Hcat.
  assert (forall st', phase2_step internships quota_slots st m = Ok st' ->
            has_categories (quota_filled st') ->
            exists st', phase2_step internships quota_slots st m = Ok st' /\
              inv internships st' /\ has_categories (quota_filled st'))
    as Hclose by (intros st' Hrun; eauto using phase2_step_inv).
  assert ("general"%string ∈ all_categories) as Hg by left.
  destruct (dict_incr_has_categories _ _ Hcat Hg) as (g & Hgv & Hincr & Hcat').
  destruct (fill_unfilled_quota_ok (quota_filled st) quota_slots
              reserved_categories Hcat Hs) as (r & Hfill & Hr).
  { intros x Hx. right. exact Hx. }
  pose proof (fun c t q => record_allocation_ok internships st m c t q
                             Hinv Hm) as Hrec.
  unfold phase2_step in *.
  destruct (skip_match internships st m); [eapply Hclose; eauto|].
  unfold dict_index in *. rewrite Hgv in *. simpl in *.
  destruct (String.eqb _ _); simpl in *.
  - destruct (g <? _); simpl in *.
    + rewrite Hincr in *. simpl in *.
      destruct (Hrec (get_candidate_category m) "general"%string
                  (<[ "general"%string := g + 1 ]> (quota_filled st)))
        as (st1 & Hst1 & Hqf).
      eapply Hclose; [exact Hst1|]. rewrite Hqf. exact Hcat'.
    + rewrite Hfill in *. simpl in *. destruct r as [qf'|].
      * destruct (Hrec (get_candidate_category m) "merit_in_quota"%string
                    qf') as (st1 & Hst1 & Hqf).
        eapply Hclose; [exact Hst1|]. rewrite Hqf. auto.
      * eapply Hclose; eauto.
  - rewrite Hfill in *. simpl in *. destruct r as [qf'|].
    + destruct (Hrec (get_candidate_category m) "merit_in_quota"%string
                  qf') as (st1 & Hst1 & Hqf).
      eapply Hclose; [exact Hst1|]. rewrite Hqf. auto.
    + destruct (g <? _); [|eapply Hclose; eauto].
      rewrite Hincr in *. simpl in *.
      destruct (Hrec (get_candidate_category m) "merit"%string
                  (<[ "general"%string := g + 1 ]> (quota_filled st)))
        as (st1 & Hst1 & Hqf).
      eapply Hclose; [exact Hst1|]. rewrite Hqf. exact Hcat'.
Qed.

Lemma phase2_ok (internships : list internship)
    (quota_slots : gmap string Z) (matches : list match_record) :
  has_categories quota_slots ->
  Forall (tracked internships) matches ->
  forall st,
    inv internships st -> has_categories (quota_filled st) ->
    exists st',
      phase2 internships quota_slots matches st = Ok st' /\
      inv internships st'.
Proof.
  intros Hs Htr. induction Htr as [|m rest Hm _ IH]; intros st Hinv Hcat.
  - exists st. simpl. auto.
  - simpl.
    destruct (phase2_step_ok internships quota_slots st m Hs Hm Hinv Hcat)
      as (st1 & Hstep & Hinv1 & Hcat1).
    rewrite Hstep. simpl. apply IH; assumption.
Qed.

(** A run returns when every match names an internship of the input list
    and the per-category dicts have the five categories among their keys. *)
Lemma allocate_with_quotas_returns (self : service)
    (matches : list match_record) (quota_slots : gmap string Z)
    (internships : list internship) :
  Forall (tracked internships) matches ->
  (forall category, category ∈ all_categories ->
                    is_Some (quotas self !! category)) ->
  has_categories quota_slots ->
  exists r, allocate_with_quotas self matches quota_slots internships = Ok r.
Proof.
  intros Htr Hq Hs. unfold allocate_with_quotas.
  destruct (phase1_ok internships quota_slots matches reserved_categories)
    with (st := init_state self internships) as (st1 & H1 & Hinv1 & Hcat1).
  { intros x Hx. right. exact Hx. }
  { exact Htr. }
  { apply init_state_inv. }
  { simpl. apply has_categories_fmap. exact Hq. }
  destruct (phase2_ok internships quota_slots matches Hs Htr st1 Hinv1 Hcat1)
    as (st2 & H2 & _).
  rewrite H1. simpl. rewrite H2. simpl. eauto.
Qed.

(** C10.  The [total_capacity] of the summary is the sum of the used counts,
    one per allocation record: in every run that returns it equals the
    number of records and therefore [total_allocated]; and a run returns
    when every match names an internship of the input list. *)
Theorem summary_total_capacity_is_allocation_count (self : service)
    (matches : list match_record) (quota_slots : gmap string Z)
    (internships : list internship) :
  (forall r,
     allocate_with_quotas self matches quota_slots internships = Ok r ->
     total_capacity (summary r) =
       Z.of_nat (length (res_final_allocations r)) /\
     total_allocated (summary r) = total_capacity (summary r)) /\
  (Forall (tracked internships) matches ->
   (forall category, category ∈ all_categories ->
                     is_Some (quotas self !! category)) ->
   has_categories quota_slots ->
   exists r, allocate_with_quotas self matches quota_slots internships = Ok r).
Proof.
  split; [|apply allocate_with_quotas_returns].
  intros r (st & [_ _ _ Hsum _] & -> & _ & -> & -> & _)%allocate_with_quotas_inv.
  rewrite Hsum. split; reflexivity.
Qed.

Lemma summary_total_capacity_is_allocation_count_witness :
  (total_capacity (summary scenario_a_result) =
     Z.of_nat (length (res_final_allocations scenario_a_result)) /\
   total_allocated (summary scenario_a_result) =
     total_capacity (summary scenario_a_result)) /\
  exists r,
    allocate_with_quotas init_service scenario_a_matches one_slot_each
      [scenario_a_internship] = Ok r.
Proof.
  destruct (summary_total_capacity_is_allocation_count init_service
              scenario_a_matches one_slot_each [scenario_a_internship])
    as [Hcount Hreturns].
  split.
  - apply Hcount. vm_compute. reflexivity.
  - apply Hreturns.
    + solve_tracked.
    + solve_categories.
    + solve_categories.
Defined.

(** Scenario A declares two seats and fills both; with a third seat the
    summary would still report 2, the number of allocations. *)
Example scenario_a_summary :
  total_capacity (summary scenario_a_result) = 2 /\
  total_allocated (summary scenario_a_result) = 2.
Proof. vm_compute. split; reflexivity. Qed.

(** C9, as the code has it.  Nothing checks capacities: a run whose matches
    all name listed internships returns, and an internship of capacity 0 is
    full from the start, so every match for it is skipped and the output
    holds no record for it. *)
Theorem zero_capacity_internship_gets_no_allocation (self : service)
    (matches : list match_record) (quota_slots : gmap string Z)
    (internships : list internship) :
  Forall (tracked internships) matches ->
  (forall category, category ∈ all_categories ->
                    is_Some (quotas self !! category)) ->
  has_categories quota_slots ->
  exists r,
    allocate_with_quotas self matches quota_slots internships = Ok r /\
    forall i, i ∈ internships ->
      (forall j, j ∈ internships -> i_id j = i_id i ->
                 capacity_of j = capacity_of i) ->
      capacity_of i = 0 ->
      count_for (i_id i) (res_final_allocations r) = 0.
Proof.
  intros Htr Hq Hs.
  destruct (allocate_with_quotas_returns self matches quota_slots internships
              Htr Hq Hs) as [r Hrun].
  exists r. split; [exact Hrun|].
  intros i Hin Hsame Hzero.
  pose proof (allocate_with_quotas_count _ _ _ _ _ (i_id i) Hrun) as Hle.
  rewrite (get_internship_capacity_same _ _ Hin Hsame), Hzero in Hle.
  assert (i_id i ∈ i_id <$> internships) as Hk
    by (apply list_elem_of_fmap; eauto).
  specialize (Hle Hk). unfold count_for in *. lia.
Qed.

Lemma zero_capacity_internship_gets_no_allocation_witness :
  exists r,
    allocate_with_quotas init_service
      (apply_diversity_boosts init_service scenario_d_matches)
      scenario_d_slots scenario_d_internships = Ok r /\
    forall i, i ∈ scenario_d_internships ->
      (forall j, j ∈ scenario_d_internships -> i_id j = i_id i ->
                 capacity_of j = capacity_of i) ->
      capacity_of i = 0 ->
      count_for (i_id i) (res_final_allocations r) = 0.
Proof.
  apply (zero_capacity_internship_gets_no_allocation init_service
           (apply_diversity_boosts init_service scenario_d_matches)
           scenario_d_slots scenario_d_internships).
  - solve_tracked.
  - solve_categories.
  - solve_categories.
Defined.

(** C9, as the specification words it, fails.  In scenario D the internship
    [int-0] has capacity 0; the allocation stage runs to its end without an
    exception and allocates the other internship's seat, and what
    [apply_affirmative_action] raises afterwards is not a validation
    error. *)
Lemma zero_capacity_is_not_rejected :
  scenario_d_closed ∈ scenario_d_internships /\
  capacity_of scenario_d_closed = 0 /\
  allocate_with_quotas init_service
    (apply_diversity_boosts init_service scenario_d_matches)
    scenario_d_slots scenario_d_internships = Ok scenario_d_result /\
  (fun a => (a_candidate_id a, a_internship_id a, a_allocation_type a)) <$>
    res_final_allocations scenario_d_result =
    [ (Some "cand-b", Some "int-1", "general") ]%string /\
  fst (apply_affirmative_action init_service scenario_d_matches
         scenario_d_internships) =
    [ LogApplying 2; LogQuotaSlots scenario_d_slots ] /\
  snd (apply_affirmative_action init_service scenario_d_matches
         scenario_d_internships) <> Err ValueError.
Proof.
  split; [left|].
  split; [reflexivity|].
  split; [vm_compute; reflexivity|].
  split; [vm_compute; reflexivity|].
  split; [vm_compute; reflexivity|].
  vm_compute. discriminate.
Qed.

(** ** [apply_affirmative_action]: no input validation *)


Lemma not_rejected_Ok {A : Type} (a : A) : not_rejected (Ok a).
Proof. discriminate. Qed.

Lemma not_rejected_bind {A B : Type} (m : result A) (k : A -> result B) :
  not_rejected m -> (forall a, not_rejected (k a)) -> not_rejected (m ≫= k).
Proof.
  destruct m as [a|e]; simpl; intros Hm Hk; [apply Hk|].
  intros [= ->]. apply Hm. reflexivity.
Qed.

Lemma not_rejected_dict_index {K : Type} `{Countable K} {V : Type}
    (d : gmap K V) (k : K) : not_rejected (dict_index d k).
Proof. unfold dict_index. destruct (d !! k); discriminate. Qed.

Lemma not_rejected_dict_incr {K : Type} `{Countable K}
    (d : gmap K Z) (k : K) : not_rejected (dict_incr d k).
Proof.
  unfold dict_incr. apply not_rejected_bind.
  - apply not_rejected_dict_index.
  - intros. apply not_rejected_Ok.
Qed.

Lemma not_rejected_record_allocation (st : alloc_state) (m : match_record)
    (category allocation_type : string) (quota_filled' : gmap string Z) :
  not_rejected
    (record_allocation st m category allocation_type quota_filled').
Proof.
  unfold record_allocation. apply not_rejected_bind.
  - apply not_rejected_dict_incr.
  - intros. apply not_rejected_Ok.
Qed.

Create HintDb no_validation.
#[local] Hint Resolve not_rejected_Ok not_rejected_dict_index
  not_rejected_dict_incr not_rejected_record_allocation : no_validation.

Lemma not_rejected_phase1_scan (internships : list internship)
    (category : string) (quota_limit : Z) (matches : list match_record) :
  forall st,
    not_rejected (phase1_scan internships category quota_limit matches st).
Proof.
  induction matches as [|m rest IH]; intros st; simpl;
    [auto with no_validation|].
  apply not_rejected_bind; [auto with no_validation|]. intros filled.
  destruct (_ <=? _); [auto with no_validation|].
  destruct (skip_match _ _ _); [apply IH|].
  destruct (String.eqb _ _); [|apply IH].
  apply not_rejected_bind; [auto with no_validation|]. intros qf'.
  apply not_rejected_bind; [auto with no_validation|]. intros st'. apply IH.
Qed.

Lemma not_rejected_phase1 (internships : list internship)
    (quota_slots : gmap string Z) (matches : list match_record)
    (categories : list string) :
  forall st,
    not_rejected (phase1 internships quota_slots matches categories st).
Proof.
  induction categories as [|c rest IH]; intros st; simpl;
    [auto with no_validation|].
  apply not_rejected_bind; [apply not_rejected_phase1_scan|]. intros. apply IH.
Qed.

Lemma not_rejected_fill_unfilled_quota
    (quota_filled0 quota_slots : gmap string Z) (categories : list string) :
  not_rejected (fill_unfilled_quota quota_filled0 quota_slots categories).
Proof.
  induction categories as [|c rest IH]; simpl; [auto with no_validation|].
  apply not_rejected_bind; [auto with no_validation|]. intros filled.
  apply not_rejected_bind; [auto with no_validation|]. intros slots.
  destruct (_ <? _); [|exact IH].
  apply not_rejected_bind; auto with no_validation.
Qed.

Lemma not_rejected_phase2_step (internships : list internship)
    (quota_slots : gmap string Z) (st : alloc_state) (m : match_record) :
  not_rejected (phase2_step internships quota_slots st m).
Proof.
  unfold phase2_step.
  destruct (skip_match _ _ _); [auto with no_validation|].
  apply not_rejected_bind.
  { destruct (String.eqb _ _); [|auto with no_validation].
    apply not_rejected_bind; auto with no_validation. }
  intros [|].
  - apply not_rejected_bind; auto with no_validation.
  - apply not_rejected_bind; [apply not_rejected_fill_unfilled_quota|].
    intros [qf'|]; [auto with no_validation|].
    apply not_rejected_bind; [auto with no_validation|]. intros filled.
    destruct (_ <? _); [|auto with no_validation].
    apply not_rejected_bind; auto with no_validation.
Qed.

Lemma not_rejected_phase2 (internships : list internship)
    (quota_slots : gmap string Z) (matches : list match_record) :
  forall st, not_rejected (phase2 internships quota_slots matches st).
Proof.
  induction matches as [|m rest IH]; intros st; simpl;
    [auto with no_validation|].
  apply not_rejected_bind; [apply not_rejected_phase2_step|]. intros. apply IH.
Qed.

Lemma not_rejected_allocate_with_quotas (self : service)
    (matches : list match_record) (quota_slots : gmap string Z)
    (internships : list internship) :
  not_rejected (allocate_with_quotas self matches quota_slots internships).
Proof.
  unfold allocate_with_quotas.
  apply not_rejected_bind; [apply not_rejected_phase1|]. intros st1.
  apply not_rejected_bind; [apply not_rejected_phase2|]. intros st2.
  apply not_rejected_Ok.
Qed.

Lemma not_rejected_apply_affirmative_action (self : service)
    (matches : list match_record) (internships : list internship) :
  not_rejected (snd (apply_affirmative_action self matches internships)).
Proof.
  unfold apply_affirmative_action.
  destruct (calculate_quota_slots _ _) as [quota_slots|e] eqn:Hq; simpl.
  - pose proof (not_rejected_allocate_with_quotas self
                  (apply_diversity_boosts self matches) quota_slots
                  internships) as Hrun.
    destruct (allocate_with_quotas _ _ _ _); simpl; [discriminate|].
    intros [= ->]. apply Hrun. reflexivity.
  - revert Hq. unfold calculate_quota_slots.
    destruct (_ <? _); [destruct (_ =? _)|]; intros [= <-]. discriminate.
Qed.

(** With no match to scan, both phases leave the initial state as it is. *)
Lemma allocate_with_quotas_no_matches (self : service)
    (quota_slots : gmap string Z) (internships : list internship) :
  exists r,
    allocate_with_quotas self [] quota_slots internships = Ok r /\
    res_final_allocations r = [] /\
    total_allocated (summary r) = 0.
Proof.
  unfold allocate_with_quotas. simpl. eexists. repeat split.
Qed.

(** C4, as the code has it.  [apply_affirmative_action] checks neither
    list: for an empty match list or an empty internship list it raises no
    validation error, and with an empty match list the boosting and the
    allocation stage run and the allocation stage returns an empty
    allocation list. *)
Theorem empty_inputs_are_not_validated (self : service)
    (matches : list match_record) (internships : list internship) :
  matches = [] \/ internships = [] ->
  snd (apply_affirmative_action self matches internships) <> Err ValueError /\
  (matches = [] ->
   forall quota_slots, exists r,
     allocate_with_quotas self (apply_diversity_boosts self matches)
       quota_slots internships = Ok r /\
     res_final_allocations r = [] /\
     total_allocated (summary r) = 0).
Proof.
  intros _. split; [apply not_rejected_apply_affirmative_action|].
  intros -> quota_slots. apply allocate_with_quotas_no_matches.
Qed.

Lemma empty_inputs_are_not_validated_witness :
  snd (apply_affirmative_action init_service [] [scenario_a_internship])
    <> Err ValueError /\
  snd (apply_affirmative_action init_service scenario_a_matches [])
    <> Err ValueError.
Proof.
  split.
  - apply (empty_inputs_are_not_validated init_service []
             [scenario_a_internship]).
    left. reflexivity.
  - apply (empty_inputs_are_not_validated init_service scenario_a_matches []).
    right. reflexivity.
Defined.

(** C4, as the specification words it, fails.  With an empty match list
    the quota plan is computed and logged, the allocation stage returns, and
    the exception that ends the call comes from the report stage; with an
    empty internship list the call ends in the allocation stage, on the
    first record it tries to allocate.  Neither is a validation error and
    neither comes before the computation. *)
Lemma empty_inputs_reach_the_computation :
  apply_affirmative_action init_service [] [scenario_a_internship] =
    ([ LogApplying 0;
       LogQuotaSlots (value_or ∅ (calculate_quota_slots init_service 2)) ],
     Err AttributeError) /\
  returned (allocate_with_quotas init_service
              (apply_diversity_boosts init_service [])
              (value_or ∅ (calculate_quota_slots init_service 2))
              [scenario_a_internship]) = true /\
  apply_affirmative_action init_service scenario_a_matches [] =
    ([ LogApplying 3;
       LogQuotaSlots (value_or ∅ (calculate_quota_slots init_service 0)) ],
     Err KeyError).
Proof. repeat split; vm_compute; reflexivity. Qed.

(** ** Phase 2: spill-over into unfilled reserved seats *)




(** The second [obc] candidate of the run above takes the [st] seat: the
    [st] counter goes to 1 and the record keeps the category [obc]. *)
Example spill_candidate_takes_st_seat :
  match phase2_step [spill_internship] one_slot_each spill_state
          spill_candidate with
  | Ok st' =>
      quota_filled st' !! "st"%string = Some 1 /\
      quota_filled st' !! "obc"%string = Some 1 /\
      (fun a => (a_candidate_id a, a_category a, a_allocation_type a)) <$>
        final_allocations st' =
      [ (Some "cand-b", "sc", "quota"); (Some "cand-a", "obc", "quota");
        (Some "cand-c", "obc", "merit_in_quota") ]%string
  | Err _ => False
  end.
Proof. vm_compute. repeat split. Qed.

(** * Further properties of the modelled code *)

(** ** QuotaPlanner: shape and size of the plan *)





(** X1.  A plan that is returned has exactly the categories of the
    configured table as its keys, and gives each of them at least one slot,
    whatever the capacity (zero and negative capacities included). *)
Theorem quota_plan_keys_and_minimum (self : service) (total_capacity : Z)
    (quota_slots : gmap string Z) :
  calculate_quota_slots self total_capacity = Ok quota_slots ->
  (forall category,
     is_Some (quota_slots !! category) <->
     is_Some (quotas self !! category)) /\
  (forall category slots,
     quota_slots !! category = Some slots -> 1 <= slots).
Proof.
  intros Hq. split.
  - intros category. eapply calculate_quota_slots_dom. exact Hq.
  - eapply calculate_quota_slots_ge_1. exact Hq.
Qed.

Lemma quota_plan_keys_and_minimum_witness :
  (forall category,
     is_Some (scenario_d_slots !! category) <->
     is_Some (quotas init_service !! category)) /\
  (forall category slots,
     scenario_d_slots !! category = Some slots -> 1 <= slots).
Proof.
  apply (quota_plan_keys_and_minimum init_service 1 scenario_d_slots).
  vm_compute. reflexivity.
Defined.

(** X2.  The planner raises only in one corner: [ZeroDivisionError] for an
    empty table with a negative capacity.  With a non-empty table, or a
    capacity that is not negative, it returns a plan. *)
Theorem quota_planner_failure (self : service) (total_capacity : Z) :
  (quotas self = ∅ -> total_capacity < 0 ->
   calculate_quota_slots self total_capacity = Err ZeroDivisionError) /\
  (quotas self <> ∅ \/ 0 <= total_capacity ->
   exists quota_slots,
     calculate_quota_slots self total_capacity = Ok quota_slots).
Proof.
  unfold calculate_quota_slots. split.
  - intros -> Hneg. rewrite fmap_empty, dict_sum_empty.
    apply Z.ltb_lt in Hneg. rewrite Hneg. reflexivity.
  - intros Hok.
    destruct (_ <? _) eqn:Hlt; [|eauto].
    destruct (_ =? _) eqn:Hz; [|eauto].
    exfalso. apply Z.ltb_lt in Hlt. apply Z.eqb_eq in Hz.
    pose proof (dict_sum_ge_size (initial_slots total_capacity <$> quotas self))
      as Hsize.
    rewrite map_size_fmap in Hsize.
    assert (Z.of_nat (size (quotas self)) <=
            dict_sum (initial_slots total_capacity <$> quotas self)) as Hge.
    { apply Hsize. intros k v. rewrite lookup_fmap.
      destruct (quotas self !! k); [|discriminate]. intros [= <-].
      apply initial_slots_ge_1. }
    destruct Hok as [Hne|Hcap]; [|lia].
    apply Hne. apply map_size_empty_iff. lia.
Qed.

Lemma quota_planner_failure_witness :
  calculate_quota_slots
    {| quotas := ∅; rural_quota_percentage := 0;
       diversity_boost := diversity_boost init_service |} (-1) =
    Err ZeroDivisionError /\
  exists quota_slots, calculate_quota_slots init_service 0 = Ok quota_slots.
Proof.
  split.
  - apply (proj1 (quota_planner_failure
                    {| quotas := ∅; rural_quota_percentage := 0;
                       diversity_boost := diversity_boost init_service |}
                    (-1))); [reflexivity|lia].
  - apply (proj2 (quota_planner_failure init_service 0)). right. lia.
Defined.



(** ** Configuration: what an update keeps *)

(** X4.  [update_quotas] never removes a category: a key of the stored
    table is still a key after the call, whether the update was applied or
    rejected.  In particular the five categories of [__init__] stay. *)
Theorem update_quotas_keeps_keys (self : service)
    (new_quotas : gmap string Q) (category : string) :
  is_Some (quotas self !! category) ->
  is_Some (quotas (fst (update_quotas self new_quotas)) !! category).
Proof.
  intros [p Hp]. unfold update_quotas.
  destruct (Qle_bool _ _); simpl; [|eauto].
  destruct (new_quotas !! category) as [p'|] eqn:Hnew.
  - exists p'. apply lookup_union_Some_l. exact Hnew.
  - exists p. rewrite lookup_union_r by exact Hnew. exact Hp.
Qed.

Lemma update_quotas_keeps_keys_witness :
  is_Some (quotas (fst (update_quotas init_service scenario_b_quotas))
             !! "obc"%string) /\
  is_Some (quotas (fst (update_quotas init_service skewed_quotas))
             !! "obc"%string).
Proof.
  split.
  - apply (update_quotas_keeps_keys init_service scenario_b_quotas).
    vm_compute. eauto.
  - apply (update_quotas_keeps_keys init_service skewed_quotas).
    vm_compute. eauto.
Defined.



(** ** Candidate classification *)

(** X6.  [_get_candidate_category] always answers one of the five quota
    categories, and a reserved one only for a social-category text that,
    lower-cased, is that category's short or long name. *)
Theorem candidate_category_is_closed (m : match_record) :
  get_candidate_category m ∈ all_categories /\
  (get_candidate_category m <> "general"%string ->
   lower (m_social_category m) ∈
     ["sc"; "scheduled caste"; "st"; "scheduled tribe";
      "obc"; "other backward class";
      "ews"; "economically weaker section"]%string).
Proof.
  unfold get_candidate_category, all_categories, reserved_categories.
  repeat case_bool_decide;
    (split;
     [ apply list_elem_of_In; simpl; auto 10
     | intros Hne; try congruence; apply list_elem_of_In;
       repeat match goal with
              | H : _ ∈ _ |- _ => apply list_elem_of_In in H
              end;
       simpl in *; tauto ]).
Qed.

(** X7.  [_get_internship_capacity] answers 1 for an identifier that no
    listed internship has, and otherwise the capacity (1 when the field is
    absent) of a listed internship with that identifier. *)
Theorem internship_capacity_lookup (internship_id : option string)
    (internships : list internship) :
  (internship_id ∉ (i_id <$> internships) ->
   get_internship_capacity internship_id internships = 1) /\
  (internship_id ∈ (i_id <$> internships) ->
   exists i, i ∈ internships /\ i_id i = internship_id /\
             get_internship_capacity internship_id internships =
             capacity_of i).
Proof.
  induction internships as [|j rest [IHn IHy]]; simpl.
  - split; [reflexivity|]. intros Hin. inversion Hin.
  - destruct (bool_decide (i_id j = internship_id)) eqn:Hj.
    + apply bool_decide_eq_true in Hj. split.
      * intros Hnin. exfalso. apply Hnin. rewrite Hj. left.
      * intros _. exists j. split; [left|]. split; [exact Hj|reflexivity].
    + apply bool_decide_eq_false in Hj. split.
      * intros Hnin. apply IHn. intros Hin. apply Hnin. right. exact Hin.
      * intros [Heq|Hin]%elem_of_cons; [congruence|].
        destruct (IHy Hin) as (i & Hi & Hid & Hcap).
        exists i. split; [right; exact Hi|]. split; assumption.
Qed.

Lemma internship_capacity_lookup_witness :
  get_internship_capacity (Some "int-9"%string) scenario_d_internships = 1 /\
  exists i, i ∈ scenario_d_internships /\ i_id i = Some "int-0"%string /\
            get_internship_capacity (Some "int-0"%string)
              scenario_d_internships = capacity_of i.
Proof.
  split.
  - apply (proj1 (internship_capacity_lookup (Some "int-9"%string)
                    scenario_d_internships)).
    apply (bool_decide_eq_false_1 _). vm_compute. reflexivity.
  - apply (proj2 (internship_capacity_lookup (Some "int-0"%string)
                    scenario_d_internships)).
    vm_compute. left.
Defined.

(** ** Rural detection: the substring test *)

Lemma prefix_spec (p s : string) :
  String.prefix p s = true <-> exists post, s = String.append p post.
Proof.
  revert s. induction p as [|a p IH]; intros [|b s]; simpl.
  - split; [intros _; exists EmptyString; reflexivity|reflexivity].
  - split; [intros _; exists (String b s); reflexivity|reflexivity].
  - split; [discriminate|]. intros [post Hpost]. discriminate.
  - destruct (ascii_dec a b) as [<-|Hne].
    + rewrite IH. split; intros [post Hpost]; exists post.
      * rewrite Hpost. reflexivity.
      * change (String a s = String a (String.append p post)) in Hpost.
        congruence.
    + split; [discriminate|]. intros [post Hpost].
      change (String b s = String a (String.append p post)) in Hpost.
      congruence.
Qed.

Lemma contains_spec (hay needle : string) :
  contains hay needle = true <->
  exists pre post, hay = String.append pre (String.append needle post).
Proof.
  induction hay as [|c hay IH].
  - change (contains "" needle) with (String.prefix needle "" || false).
    rewrite orb_false_r, prefix_spec. split.
    + intros [post Hpost]. exists EmptyString, post. exact Hpost.
    + intros ([|c pre] & post & Hpre); [eauto|discriminate].
  - change (contains (String c hay) needle)
      with (String.prefix needle (String c hay) || contains hay needle).
    rewrite orb_true_iff, prefix_spec, IH. split.
    + intros [[post Hpost]|(pre & post & Hpre)].
      * exists EmptyString, post. exact Hpost.
      * exists (String c pre), post. rewrite Hpre. reflexivity.
    + intros ([|c' pre] & post & Hpre).
      * left. eauto.
      * right.
        change (String c hay =
                String c' (String.append pre (String.append needle post)))
          in Hpre.
        injection Hpre as _ Hpre. eauto.
Qed.

(** X8.  [_is_rural_candidate] holds exactly when the lower-cased location
    has one of the nine rural keywords as a substring, at any position and
    whatever surrounds it. *)
Theorem rural_candidate_iff_keyword (m : match_record) :
  is_rural_candidate m = true <->
  exists indicator pre post,
    indicator ∈ rural_indicators /\
    lower (m_location m) =
      String.append pre (String.append indicator post).
Proof.
  unfold is_rural_candidate. rewrite existsb_exists. split.
  - intros (indicator & Hin & Hc). apply contains_spec in Hc as (pre & post & H).
    exists indicator, pre, post. split; [apply list_elem_of_In; exact Hin|exact H].
  - intros (indicator & pre & post & Hin & H).
    exists indicator. split; [apply list_elem_of_In; exact Hin|].
    apply contains_spec. eauto.
Qed.

Lemma rural_candidate_iff_keyword_witness :
  is_rural_candidate barnala_match = true.
Proof.
  apply (proj2 (rural_candidate_iff_keyword barnala_match)).
  exists "village"%string, "barnala "%string, ", punjab"%string.
  split; [|reflexivity].
  apply list_elem_of_here.
Defined.

(** ** DiversityBooster: range and order *)

Lemma Qplus_nonneg_nonneg (a b : Q) : (0 <= a -> 0 <= b -> 0 <= a + b)%Q.
Proof. intros Ha Hb. exact (Qplus_le_compat 0 a 0 b Ha Hb). Qed.

(** X9.  A boosted score never exceeds 1.0.  With weights that are not
    negative, boosting does not lower a raw score of at most 1.0, and a raw
    score of 1.0 or more comes out as exactly 1.0. *)
Theorem boosted_score_bounds (self : service) (m : match_record) :
  (m_score (boost_match self m) <= 1)%Q /\
  (nonneg_boosts (diversity_boost self) ->
   ((m_score m <= 1)%Q ->
    (m_score m <= m_score (boost_match self m))%Q) /\
   ((1 <= m_score m)%Q -> (m_score (boost_match self m) == 1)%Q)).
Proof.
  destruct (boost_match_spec self m)
    as (boosted & total & _ & _ & _ & Hs & _ & _ & Hmin & _ & _).
  rewrite Hs, Hmin. split; [apply Q.le_min_r|].
  intros (Hr & Hf & Hp & Hg).
  assert (0 <= qsum (snd <$> applicable_boosts self m))%Q as Hnn.
  { unfold applicable_boosts, diversity_indicators.
    destruct (m_rural_background m || is_rural_candidate m),
      (is_female_candidate m), (is_pwd_candidate m),
      (is_first_generation_candidate m); cbn;
      repeat first [assumption | apply Qle_refl
                   | apply Qplus_nonneg_nonneg]. }
  split.
  - intros Hle. apply Q.min_glb; [|exact Hle].
    rewrite <- (Qplus_0_r (m_score m)) at 1.
    apply Qplus_le_r. exact Hnn.
  - intros Hge. apply Q.min_r.
    rewrite <- (Qplus_0_r 1).
    apply Qplus_le_compat; assumption.
Qed.

Lemma boosted_score_bounds_witness :
  (m_score barnala_match <= m_score (boost_match init_service barnala_match))%Q.
Proof.
  apply (proj2 (boosted_score_bounds init_service barnala_match)).
  - repeat split; discriminate.
  - discriminate.
Defined.

Lemma insert_by_score_sorted (x : match_record) (l : list match_record) :
  Sorted score_ge l -> Sorted score_ge (insert_by_score x l).
Proof.
  induction l as [|y l IH]; intros Hs; simpl.
  - repeat constructor.
  - destruct (Qle_bool (m_score y) (m_score x)) eqn:Hle.
    + apply Qle_bool_iff in Hle.
      constructor; [exact Hs|constructor; exact Hle].
    + assert (score_ge y x) as Hyx.
      { unfold score_ge. apply Qlt_le_weak. apply Qnot_le_lt.
        intros H. apply Qle_bool_iff in H. congruence. }
      inversion Hs as [|? ? Hs' Hhd]; subst.
      constructor; [apply IH; exact Hs'|].
      destruct l as [|z l]; simpl.
      * constructor. exact Hyx.
      * destruct (Qle_bool (m_score z) (m_score x));
          constructor; [exact Hyx|].
        inversion Hhd; subst. assumption.
Qed.

Lemma sort_by_score_sorted (l : list match_record) :
  Sorted score_ge (sort_by_score l).
Proof.
  induction l as [|x l IH]; simpl; [constructor|].
  apply insert_by_score_sorted. exact IH.
Qed.

(** X10.  The list that [_apply_diversity_boosts] returns holds the boosted
    copy of every input match, once each, in order of boosted score from
    the highest to the lowest: every record scores at least as much as all
    that follow it. *)
Theorem boosted_matches_sorted (self : service)
    (matches : list match_record) :
  apply_diversity_boosts self matches ≡ₚ boost_match self <$> matches /\
  length (apply_diversity_boosts self matches) = length matches /\
  StronglySorted score_ge (apply_diversity_boosts self matches).
Proof.
  unfold apply_diversity_boosts.
  pose proof (sort_by_score_perm (boost_match self <$> matches)) as Hperm.
  split; [exact Hperm|]. split.
  - rewrite Hperm. apply length_fmap.
  - apply Sorted_StronglySorted; [|apply sort_by_score_sorted].
    intros a b c Hab Hbc. unfold score_ge in *.
    eapply Qle_trans; eassumption.
Qed.

(** ** AllocationEngine: provenance of the records and the counters *)

Lemma get_candidate_category_in (m : match_record) :
  get_candidate_category m ∈ all_categories.
Proof.
  unfold get_candidate_category, all_categories, reserved_categories.
  repeat case_bool_decide; apply list_elem_of_In; simpl; auto 10.
Qed.

Lemma not_general_reserved (c : string) :
  c ∈ all_categories -> c <> "general"%string -> c ∈ reserved_categories.
Proof. intros [->|Hc]%elem_of_cons Hne; [congruence|exact Hc]. Qed.

Lemma init_state_accounted (self : service) (quota_slots : gmap string Z)
    (ms : list match_record) (internships : list internship) :
  accounted quota_slots ms (init_state self internships).
Proof.
  split; simpl.
  - intros a Ha. inversion Ha.
  - apply dict_sum_zero. intros k v. rewrite lookup_fmap.
    destruct (quotas self !! k); simpl; congruence.
  - intros c v. rewrite lookup_fmap.
    destruct (quotas self !! c); simpl; [|discriminate].
    intros [= <-]. lia.
Qed.

(** The shared block keeps [accounted] when the new record is built from a
    scanned match with a consistent type and the counter that was bumped
    was below its slot count. *)
Lemma record_allocation_accounted (quota_slots : gmap string Z)
    (ms : list match_record) (st st' : alloc_state) (m : match_record)
    (allocation_type c : string) (v : Z) :
  accounted quota_slots ms st ->
  m ∈ ms ->
  consistent_type allocation_type (get_candidate_category m) ->
  quota_filled st !! c = Some v ->
  v < dict_get quota_slots c 0 ->
  record_allocation st m (get_candidate_category m) allocation_type
    (<[c := v + 1]> (quota_filled st)) = Ok st' ->
  accounted quota_slots ms st'.
Proof.
  intros [Hfrom Hsum Hbound] Hm Hty Hv Hlt Hrec.
  unfold record_allocation in Hrec.
  apply bind_Ok in Hrec as (used' & Hincr & [= <-]).
  pose proof (fun j => dict_incr_dom _ _ _ j Hincr) as Hdom.
  split; simpl.
  - intros a [Ha|Ha]%elem_of_app.
    + destruct (Hfrom a Ha) as (m0 & Hm0 & Heq & Hsome & Hcons).
      exists m0. rewrite Hdom. auto.
    + apply list_elem_of_singleton in Ha. subst a. exists m.
      split; [exact Hm|]. split; [reflexivity|].
      split; [|exact Hty].
      rewrite Hdom. apply dict_incr_lookup in Hincr as (u & Hu & _). eauto.
  - rewrite (dict_sum_insert_present _ c v) by exact Hv.
    rewrite Hsum, length_app. simpl. lia.
  - intros c' v'. destruct (decide (c = c')) as [<-|Hne].
    + rewrite lookup_insert_eq. intros [= <-].
      destruct (Hbound c v Hv). lia.
    + rewrite lookup_insert_ne by exact Hne. apply Hbound.
Qed.

Lemma dict_incr_insert {K : Type} `{Countable K} (d d' : gmap K Z)
    (k : K) (v : Z) :
  d !! k = Some v -> dict_incr d k = Ok d' -> d' = <[k := v + 1]> d.
Proof.
  intros Hv (w & Hw & ->)%dict_incr_lookup. congruence.
Qed.

Lemma phase1_scan_accounted (internships : list internship)
    (quota_slots : gmap string Z) (ms : list match_record)
    (category : string) (matches : list match_record) :
  category ∈ reserved_categories ->
  matches ⊆ ms ->
  forall st st',
    accounted quota_slots ms st ->
    phase1_scan internships category (dict_get quota_slots category 0)
      matches st = Ok st' ->
    accounted quota_slots ms st'.
Proof.
  intros Hc. induction matches as [|m rest IH]; intros Hsub st st' Hacc Hrun;
    simpl in Hrun.
  - injection Hrun as <-. exact Hacc.
  - assert (rest ⊆ ms) as Hrest by (intros x Hx; apply Hsub; right; exact Hx).
    apply bind_Ok in Hrun as (filled & Hf & Hrun).
    apply dict_index_Ok in Hf.
    destruct (_ <=? filled) eqn:Hlim; [injection Hrun as <-; exact Hacc|].
    apply Z.leb_gt in Hlim.
    destruct (skip_match internships st m); [eauto|].
    destruct (String.eqb _ _) eqn:Heq; [|eauto].
    apply String.eqb_eq in Heq.
    apply bind_Ok in Hrun as (qf' & Hq & Hrun).
    apply bind_Ok in Hrun as (st1 & Hrec & Hrun).
    apply (dict_incr_insert _ _ _ _ Hf) in Hq. subst qf'.
    rewrite <- Heq in Hrec at 1.
    eapply (IH Hrest st1); [|exact Hrun].
    eapply record_allocation_accounted; eauto.
    + apply Hsub. left.
    + rewrite Heq. unfold consistent_type, allocation_types.
      repeat split; try discriminate; auto.
      * apply list_elem_of_here.
      * right. exact Hc.
Qed.

Lemma phase1_accounted (internships : list internship)
    (quota_slots : gmap string Z) (ms : list match_record)
    (categories : list string) :
  categories ⊆ reserved_categories ->
  forall st st',
    accounted quota_slots ms st ->
    phase1 internships quota_slots ms categories st = Ok st' ->
    accounted quota_slots ms st'.
Proof.
  induction categories as [|c rest IH]; intros Hsub st st' Hacc Hrun;
    simpl in Hrun.
  - injection Hrun as <-. exact Hacc.
  - apply bind_Ok in Hrun as (st1 & Hscan & Hrun).
    eapply (IH ltac:(intros x Hx; apply Hsub; right; exact Hx) st1);
      [|exact Hrun].
    eapply phase1_scan_accounted; [apply Hsub; left| |exact Hacc|exact Hscan].
    intros x Hx. exact Hx.
Qed.

Lemma fill_unfilled_quota_Some (quota_filled0 quota_slots : gmap string Z)
    (categories : list string) (quota_filled' : gmap string Z) :
  fill_unfilled_quota quota_filled0 quota_slots categories =
    Ok (Some quota_filled') ->
  exists c filled slots,
    c ∈ categories /\
    quota_filled0 !! c = Some filled /\
    quota_slots !! c = Some slots /\
    filled < slots /\
    quota_filled' = <[c := filled + 1]> quota_filled0.
Proof.
  induction categories as [|c rest IH]; simpl; [discriminate|].
  intros Hrun.
  apply bind_Ok in Hrun as (filled & Hf & Hrun). apply dict_index_Ok in Hf.
  apply bind_Ok in Hrun as (slots & Hs & Hrun). apply dict_index_Ok in Hs.
  destruct (filled <? slots) eqn:Hlt.
  - apply Z.ltb_lt in Hlt.
    apply bind_Ok in Hrun as (qf' & Hq & [= <-]).
    apply (dict_incr_insert _ _ _ _ Hf) in Hq.
    exists c, filled, slots. repeat split; auto. left.
  - destruct (IH Hrun) as (c' & f' & s' & Hin & H).
    exists c', f', s'. split; [right; exact Hin|exact H].
Qed.

Lemma phase2_step_accounted (internships : list internship)
    (quota_slots : gmap string Z) (ms : list match_record)
    (st st' : alloc_state) (m : match_record) :
  m ∈ ms ->
  accounted quota_slots ms st ->
  phase2_step internships quota_slots st m = Ok st' ->
  accounted quota_slots ms st'.
Proof.
  intros Hm Hacc Hrun. unfold phase2_step in Hrun.
  destruct (skip_match internships st m);
    [injection Hrun as <-; exact Hacc|].
  pose proof (get_candidate_category_in m) as Hcat.
  apply bind_Ok in Hrun as (try_general & Htry & Hrun).
  destruct try_general.
  - destruct (String.eqb _ _) eqn:Heq; [|discriminate].
    apply String.eqb_eq in Heq.
    apply bind_Ok in Htry as (g & Hg & [= Hlt]). apply dict_index_Ok in Hg.
    apply Z.ltb_lt in Hlt.
    apply bind_Ok in Hrun as (qf' & Hq & Hrun).
    apply (dict_incr_insert _ _ _ _ Hg) in Hq. subst qf'.
    eapply record_allocation_accounted; eauto.
    unfold consistent_type, allocation_types.
    repeat split; try discriminate; auto.
    apply list_elem_of_further, list_elem_of_here.
  - apply bind_Ok in Hrun as ([qf'|] & Hfill & Hrun).
    + apply fill_unfilled_quota_Some in Hfill
        as (c & f & s & _ & Hf & Hs & Hlt & ->).
      eapply record_allocation_accounted; eauto.
      * unfold consistent_type, allocation_types.
        repeat split; try discriminate; auto.
        do 2 apply list_elem_of_further. apply list_elem_of_here.
      * unfold dict_get. rewrite Hs. exact Hlt.
    + apply bind_Ok in Hrun as (g & Hg & Hrun). apply dict_index_Ok in Hg.
      destruct (g <? _) eqn:Hlt; [|injection Hrun as <-; exact Hacc].
      apply bind_Ok in Hrun as (qf' & Hq & Hrun).
      apply (dict_incr_insert _ _ _ _ Hg) in Hq. subst qf'.
      assert (get_candidate_category m <> "general"%string) as Hne.
      { intros Heq. apply String.eqb_eq in Heq. rewrite Heq in Htry.
        apply bind_Ok in Htry as (g' & Hg' & [= Hlt']).
        apply dict_index_Ok in Hg'. congruence. }
      apply Z.ltb_lt in Hlt.
      eapply record_allocation_accounted; eauto.
      unfold consistent_type, allocation_types.
      repeat split; try discriminate; auto using not_general_reserved.
      do 3 apply list_elem_of_further. apply list_elem_of_here.
Qed.

Lemma phase2_accounted (internships : list internship)
    (quota_slots : gmap string Z) (ms : list match_record)
    (matches : list match_record) :
  matches ⊆ ms ->
  forall st st',
    accounted quota_slots ms st ->
    phase2 internships quota_slots matches st = Ok st' ->
    accounted quota_slots ms st'.
Proof.
  induction matches as [|m rest IH]; intros Hsub st st' Hacc Hrun;
    simpl in Hrun.
  - injection Hrun as <-. exact Hacc.
  - apply bind_Ok in Hrun as (st1 & Hstep & Hrun).
    eapply (IH ltac:(intros x Hx; apply Hsub; right; exact Hx) st1);
      [|exact Hrun].
    eapply phase2_step_accounted; [apply Hsub; left|exact Hacc|exact Hstep].
Qed.

Lemma allocate_with_quotas_accounted (self : service)
    (matches : list match_record) (quota_slots : gmap string Z)
    (internships : list internship) (r : allocation_result) :
  allocate_with_quotas self matches quota_slots internships = Ok r ->
  exists st,
    inv internships st /\ accounted quota_slots matches st /\
    res_final_allocations r = final_allocations st /\
    quota_fulfillment r = quota_filled st /\
    total_allocated (summary r) = Z.of_nat (length (final_allocations st)).
Proof.
  unfold allocate_with_quotas. intros Hrun.
  apply bind_Ok in Hrun as (st1 & H1 & Hrun).
  apply bind_Ok in Hrun as (st2 & H2 & [= <-]).
  exists st2. simpl. split; [|split; [|repeat split]].
  - eapply phase2_inv; [|exact H2].
    eapply phase1_inv; [|exact H1]. apply init_state_inv.
  - eapply phase2_accounted; [|
      eapply phase1_accounted; [| apply init_state_accounted |exact H1]
      |exact H2]; intros x Hx; exact Hx.
Qed.

(** X11.  Every record of the output is built from one of the input matches:
    it carries that match's candidate, internship and score, its category
    tag is that candidate's own quota category, and its internship is one of
    the input list.  No record is invented. *)
Theorem allocations_come_from_matches (self : service)
    (matches : list match_record) (quota_slots : gmap string Z)
    (internships : list internship) (r : allocation_result)
    (a : allocation) :
  allocate_with_quotas self matches quota_slots internships = Ok r ->
  a ∈ res_final_allocations r ->
  exists m,
    m ∈ matches /\
    a = create_allocation_record m (get_candidate_category m)
          (a_allocation_type a) /\
    a_candidate_id a = m_candidate_id m /\
    a_internship_id a = m_internship_id m /\
    a_final_score a = m_score m /\
    a_category a = get_candidate_category m /\
    a_internship_id a ∈ (i_id <$> internships).
Proof.
  intros (st & Hinv & Hacc & -> & _)%allocate_with_quotas_accounted Ha.
  destruct (acc_from_match _ _ _ Hacc a Ha) as (m & Hm & Heq & Hsome & _).
  exists m. split; [exact Hm|]. split; [exact Heq|].
  rewrite Heq at 1 2 3 4 5. simpl. repeat split.
  apply (inv_dom _ _ Hinv). exact Hsome.
Qed.

Lemma allocations_come_from_matches_witness :
  exists m,
    m ∈ scenario_a_matches /\
    scenario_a_quota_record =
      create_allocation_record m (get_candidate_category m)
        (a_allocation_type scenario_a_quota_record) /\
    a_candidate_id scenario_a_quota_record = m_candidate_id m /\
    a_internship_id scenario_a_quota_record = m_internship_id m /\
    a_final_score scenario_a_quota_record = m_score m /\
    a_category scenario_a_quota_record = get_candidate_category m /\
    a_internship_id scenario_a_quota_record ∈
      (i_id <$> [scenario_a_internship]).
Proof.
  apply (allocations_come_from_matches init_service scenario_a_matches
           one_slot_each [scenario_a_internship] scenario_a_result
           scenario_a_quota_record).
  - vm_compute. reflexivity.
  - vm_compute. apply list_elem_of_here.
Defined.

(** X12.  The allocation type of a record is one of [quota], [general],
    [merit_in_quota] and [merit]; a [quota] record belongs to a candidate
    of a reserved category, a [general] record to a [general] candidate, and
    a [merit] record (general seat taken after the general test failed) to
    a candidate of a reserved category. *)
Theorem allocation_types_are_consistent (self : service)
    (matches : list match_record) (quota_slots : gmap string Z)
    (internships : list internship) (r : allocation_result)
    (a : allocation) :
  allocate_with_quotas self matches quota_slots internships = Ok r ->
  a ∈ res_final_allocations r ->
  a_allocation_type a ∈ allocation_types /\
  a_category a ∈ all_categories /\
  (a_allocation_type a = "quota"%string ->
   a_category a ∈ reserved_categories) /\
  (a_allocation_type a = "general"%string ->
   a_category a = "general"%string) /\
  (a_allocation_type a = "merit"%string ->
   a_category a ∈ reserved_categories).
Proof.
  intros (st & _ & Hacc & -> & _)%allocate_with_quotas_accounted Ha.
  destruct (acc_from_match _ _ _ Hacc a Ha) as (m & _ & _ & _ & Hcons).
  exact Hcons.
Qed.

Lemma allocation_types_are_consistent_witness :
  a_allocation_type scenario_a_quota_record ∈ allocation_types /\
  a_category scenario_a_quota_record ∈ all_categories /\
  (a_allocation_type scenario_a_quota_record = "quota"%string ->
   a_category scenario_a_quota_record ∈ reserved_categories) /\
  (a_allocation_type scenario_a_quota_record = "general"%string ->
   a_category scenario_a_quota_record = "general"%string) /\
  (a_allocation_type scenario_a_quota_record = "merit"%string ->
   a_category scenario_a_quota_record ∈ reserved_categories).
Proof.
  apply (allocation_types_are_consistent init_service scenario_a_matches
           one_slot_each [scenario_a_internship] scenario_a_result
           scenario_a_quota_record).
  - vm_compute. reflexivity.
  - vm_compute. apply list_elem_of_here.
Defined.

(** X13.  The per-category counters returned as [quota_fulfillment] count
    every allocation once: their sum is [total_allocated].  No counter is
    negative, and none passes the slot count of its category (read with
    [quota_slots.get(category, 0)], a negative count standing for 0) - the
    counter of a reserved category also counts the candidates of other
    categories who took one of its seats in phase 2. *)
Theorem quota_fulfillment_accounts_for_allocations (self : service)
    (matches : list match_record) (quota_slots : gmap string Z)
    (internships : list internship) (r : allocation_result) :
  allocate_with_quotas self matches quota_slots internships = Ok r ->
  dict_sum (quota_fulfillment r) = total_allocated (summary r) /\
  forall category filled,
    quota_fulfillment r !! category = Some filled ->
    0 <= filled <= Z.max 0 (dict_get quota_slots category 0).
Proof.
  intros (st & _ & Hacc & _ & -> & ->)%allocate_with_quotas_accounted.
  split; [apply (acc_sum _ _ _ Hacc)|apply (acc_bound _ _ _ Hacc)].
Qed.

Lemma quota_fulfillment_accounts_for_allocations_witness :
  dict_sum (quota_fulfillment scenario_a_result) =
    total_allocated (summary scenario_a_result) /\
  forall category filled,
    quota_fulfillment scenario_a_result !! category = Some filled ->
    0 <= filled <= Z.max 0 (dict_get one_slot_each category 0).
Proof.
  apply (quota_fulfillment_accounts_for_allocations init_service
           scenario_a_matches one_slot_each [scenario_a_internship]).
  vm_compute. reflexivity.
Defined.

(** X14.  A run allocates at most as many candidates as there are matches:
    the records name pairwise distinct candidates, each the candidate of an
    input match. *)
Theorem allocation_count_at_most_matches (self : service)
    (matches : list match_record) (quota_slots : gmap string Z)
    (internships : list internship) (r : allocation_result) :
  allocate_with_quotas self matches quota_slots internships = Ok r ->
  (length (res_final_allocations r) <= length matches)%nat.
Proof.
  intros Hrun.
  pose proof Hrun as (st & Hinv & Hacc & Hres & _)%allocate_with_quotas_accounted.
  rewrite Hres.
  rewrite <- (length_fmap a_candidate_id (final_allocations st)).
  rewrite <- (length_fmap m_candidate_id matches).
  apply submseteq_length. apply NoDup_submseteq.
  - apply (inv_nodup _ _ Hinv).
  - intros cid (a & -> & Ha)%list_elem_of_fmap.
    destruct (acc_from_match _ _ _ Hacc a Ha) as (m & Hm & Heq & _).
    apply list_elem_of_fmap. exists m. split; [|exact Hm].
    rewrite Heq. reflexivity.
Qed.

Lemma allocation_count_at_most_matches_witness :
  (length (res_final_allocations scenario_a_result) <=
   length scenario_a_matches)%nat.
Proof.
  apply (allocation_count_at_most_matches init_service scenario_a_matches
           one_slot_each [scenario_a_internship]).
  vm_compute. reflexivity.
Defined.

(** ** AllocationEngine: matches without a listed internship *)

Lemma record_allocation_untracked (st : alloc_state) (m : match_record)
    (category allocation_type : string) (quota_filled' : gmap string Z) :
  internship_capacity_used st !! m_internship_id m = None ->
  record_allocation st m category allocation_type quota_filled' =
  Err KeyError.
Proof.
  intros Hnone. unfold record_allocation, dict_incr, dict_index.
  rewrite Hnone. reflexivity.
Qed.

Lemma dict_index_cases {K : Type} `{Countable K} {V : Type}
    (d : gmap K V) (k : K) :
  (exists v, d !! k = Some v /\ dict_index d k = Ok v) \/
  dict_index d k = Err KeyError.
Proof. unfold dict_index. destruct (d !! k); eauto. Qed.

Lemma phase1_scan_nothing_tracked (internships : list internship)
    (category : string) (quota_limit : Z) (matches : list match_record)
    (st : alloc_state) :
  internship_capacity_used st = ∅ ->
  phase1_scan internships category quota_limit matches st = Ok st \/
  phase1_scan internships category quota_limit matches st = Err KeyError.
Proof.
  intros Hused. induction matches as [|m rest IH]; simpl; [auto|].
  destruct (dict_index_cases (quota_filled st) category)
    as [(v & Hv & ->)| ->]; simpl; [|auto].
  destruct (_ <=? v); [auto|].
  destruct (skip_match _ _ _); [exact IH|].
  destruct (String.eqb _ _); [|exact IH].
  unfold dict_incr, dict_index. rewrite Hv. simpl.
  rewrite record_allocation_untracked
    by (rewrite Hused; apply lookup_empty).
  auto.
Qed.

Lemma phase1_nothing_tracked (internships : list internship)
    (quota_slots : gmap string Z) (matches : list match_record)
    (categories : list string) (st : alloc_state) :
  internship_capacity_used st = ∅ ->
  phase1 internships quota_slots matches categories st = Ok st \/
  phase1 internships quota_slots matches categories st = Err KeyError.
Proof.
  intros Hused. induction categories as [|c rest IH]; simpl; [auto|].
  destruct (phase1_scan_nothing_tracked internships c
              (dict_get quota_slots c 0) matches st Hused) as [-> | ->];
    simpl; auto.
Qed.

Lemma fill_unfilled_quota_cases (quota_filled0 quota_slots : gmap string Z)
    (categories : list string) :
  (exists r, fill_unfilled_quota quota_filled0 quota_slots categories = Ok r)
  \/ fill_unfilled_quota quota_filled0 quota_slots categories = Err KeyError.
Proof.
  induction categories as [|c rest IH]; simpl; [eauto|].
  destruct (dict_index_cases quota_filled0 c) as [(f & Hf & ->)| ->];
    simpl; [|auto].
  destruct (dict_index_cases quota_slots c) as [(s & Hs & ->)| ->];
    simpl; [|auto].
  destruct (f <? s); [|exact IH].
  unfold dict_incr, dict_index. rewrite Hf. simpl. eauto.
Qed.

Lemma phase2_step_no_internships (self : service)
    (quota_slots : gmap string Z) (m : match_record) :
  1 <= dict_get quota_slots "general"%string 0 ->
  phase2_step [] quota_slots (init_state self []) m = Err KeyError.
Proof.
  intros Hgen. set (st0 := init_state self []).
  assert (skip_match [] st0 m = false) as Hskip.
  { unfold skip_match. simpl. apply orb_false_iff. split; [|reflexivity].
    apply bool_decide_eq_false. apply not_elem_of_empty. }
  assert (forall c t q, record_allocation st0 m c t q = Err KeyError)
    as Hrec.
  { intros. apply record_allocation_untracked. apply lookup_empty. }
  assert (forall v, quota_filled st0 !! "general"%string = Some v ->
                    (v <? dict_get quota_slots "general"%string 0) = true)
    as Hroom.
  { intros v. simpl. rewrite lookup_fmap.
    destruct (quotas self !! "general"%string); [|discriminate].
    intros [= <-]. apply Z.ltb_lt. lia. }
  clearbody st0. unfold phase2_step. rewrite Hskip.
  destruct (fill_unfilled_quota_cases (quota_filled st0) quota_slots
              reserved_categories) as [[[qf'|] Hfill]|Hfill];
    rewrite Hfill; clear Hfill;
    (destruct (dict_index_cases (quota_filled st0) "general"%string)
       as [(g & Hg & Hidx)|Hidx];
     [specialize (Hroom g Hg)|]);
    unfold dict_incr; rewrite !Hidx;
    destruct (String.eqb _ _); simpl; rewrite ?Hroom; simpl;
    rewrite ?Hrec; reflexivity.
Qed.

Lemma allocate_with_quotas_no_internships (self : service)
    (m : match_record) (rest : list match_record)
    (quota_slots : gmap string Z) :
  1 <= dict_get quota_slots "general"%string 0 ->
  allocate_with_quotas self (m :: rest) quota_slots [] = Err KeyError.
Proof.
  intros Hgen. unfold allocate_with_quotas.
  destruct (phase1_nothing_tracked [] quota_slots (m :: rest)
              reserved_categories (init_state self []) eq_refl)
    as [-> | ->]; [|reflexivity].
  simpl. rewrite (phase2_step_no_internships self quota_slots m Hgen).
  reflexivity.
Qed.

(** X15.  Matches without internships end in [KeyError]: called with at
    least one match and an empty internship list (and a table that has the
    [general] category), [apply_affirmative_action] plans one slot per
    category and raises [KeyError] in the allocation stage, at the capacity
    counter of the first record it tries to allocate. *)
Theorem matches_without_internships_raise_key_error (self : service)
    (m : match_record) (rest : list match_record) :
  is_Some (quotas self !! "general"%string) ->
  snd (apply_affirmative_action self (m :: rest) []) = Err KeyError.
Proof.
  intros Hgen. unfold apply_affirmative_action.
  destruct (proj2 (quota_planner_failure self 0)) as [quota_slots Hq];
    [right; lia|].
  cbn [foldr]. rewrite Hq.
  assert (1 <= dict_get quota_slots "general"%string 0) as Hslot.
  { destruct (proj2 (calculate_quota_slots_dom self 0 quota_slots
                       "general"%string Hq) Hgen) as [s Hs].
    unfold dict_get. rewrite Hs. simpl.
    eapply calculate_quota_slots_ge_1; eassumption. }
  destruct (apply_diversity_boosts self (m :: rest)) as [|bm brest] eqn:Hb.
  - pose proof (f_equal length Hb) as Hlen.
    unfold apply_diversity_boosts in Hlen.
    rewrite (Permutation_length (sort_by_score_perm _)) in Hlen.
    rewrite length_fmap in Hlen. discriminate.
  - rewrite (allocate_with_quotas_no_internships self bm brest quota_slots
               Hslot).
    reflexivity.
Qed.

Lemma matches_without_internships_raise_key_error_witness :
  snd (apply_affirmative_action init_service scenario_a_matches []) =
  Err KeyError.
Proof.
  apply (matches_without_internships_raise_key_error init_service).
  vm_compute. eauto.
Defined.

(** ** [apply_affirmative_action]: the report stage *)

(** X16.  [apply_affirmative_action] never returns a result.  Whenever the
    quota plan is computed and the allocation stage returns, the call ends
    with [AttributeError]: the report generator is handed the dict that
    [_allocate_with_quotas] returned, iterates over its keys and calls
    [.get] on a string.  Otherwise it ends with the exception of the stage
    that failed. *)
Theorem apply_affirmative_action_never_returns (self : service)
    (matches : list match_record) (internships : list internship) :
  returned (snd (apply_affirmative_action self matches internships)) = false
  /\
  (forall quota_slots allocations,
     calculate_quota_slots self
       (foldr (fun i acc => capacity_of i + acc) 0 internships) =
       Ok quota_slots ->
     allocate_with_quotas self (apply_diversity_boosts self matches)
       quota_slots internships = Ok allocations ->
     apply_affirmative_action self matches internships =
       ([LogApplying (length matches); LogQuotaSlots quota_slots],
        Err AttributeError)).
Proof.
  unfold apply_affirmative_action. split.
  - destruct (calculate_quota_slots _ _); [|reflexivity].
    destruct (allocate_with_quotas _ _ _ _); reflexivity.
  - intros quota_slots allocations -> ->. reflexivity.
Qed.

Lemma apply_affirmative_action_never_returns_witness :
  apply_affirmative_action init_service scenario_d_matches
    scenario_d_internships =
  ([LogApplying (length scenario_d_matches); LogQuotaSlots scenario_d_slots],
   Err AttributeError).
Proof.
  apply (proj2 (apply_affirmative_action_never_returns init_service
                  scenario_d_matches scenario_d_internships)
           scenario_d_slots scenario_d_result).
  - vm_compute. reflexivity.
  - vm_compute. reflexivity.
Defined.

(** ** Phase 2 when the plan is used up *)

Lemma fill_unfilled_quota_all_filled
    (quota_filled0 quota_slots : gmap string Z) (categories : list string) :
  (forall c, c ∈ categories ->
     exists f s, quota_filled0 !! c = Some f /\
                 quota_slots !! c = Some s /\ s <= f) ->
  fill_unfilled_quota quota_filled0 quota_slots categories = Ok None.
Proof.
  induction categories as [|c rest IH]; intros Hall; simpl; [reflexivity|].
  destruct (Hall c) as (f & s & Hf & Hs & Hle); [left|].
  unfold dict_index at 1 2. rewrite Hf, Hs. simpl.
  apply Z.ltb_ge in Hle. rewrite Hle.
  apply IH. intros c' Hc'. apply Hall. right. exact Hc'.
Qed.

(** X17.  Once every category has as many allocations counted as it has
    slots, phase 2 allocates nobody: whatever matches it scans, the state
    comes back unchanged and the remaining candidates stay unallocated. *)
Theorem phase2_allocates_nothing_when_plan_is_full
    (internships : list internship) (quota_slots : gmap string Z)
    (matches : list match_record) (st : alloc_state) :
  (forall c, c ∈ all_categories ->
     exists f s, quota_filled st !! c = Some f /\
                 quota_slots !! c = Some s /\ s <= f) ->
  phase2 internships quota_slots matches st = Ok st.
Proof.
  intros Hfull. induction matches as [|m rest IH]; simpl; [reflexivity|].
  assert (phase2_step internships quota_slots st m = Ok st) as ->;
    [|exact IH].
  unfold phase2_step. destruct (skip_match _ _ _); [reflexivity|].
  destruct (Hfull "general"%string) as (g & s & Hg & Hs & Hle); [left|].
  assert ((g <? dict_get quota_slots "general"%string 0) = false) as Hroom.
  { unfold dict_get. rewrite Hs. simpl. apply Z.ltb_ge. exact Hle. }
  assert (dict_index (quota_filled st) "general"%string = Ok g) as Hidx
    by (apply dict_index_Ok; exact Hg).
  rewrite !Hidx.
  rewrite fill_unfilled_quota_all_filled
    by (intros c Hc; apply Hfull; right; exact Hc).
  destruct (String.eqb _ _); simpl; rewrite Hroom; reflexivity.
Qed.

Lemma phase2_allocates_nothing_when_plan_is_full_witness :
  phase2 [scenario_a_internship]
    (quota_fulfillment scenario_a_result)
    scenario_a_matches
    {| final_allocations := res_final_allocations scenario_a_result;
       quota_filled := quota_fulfillment scenario_a_result;
       internship_capacity_used :=
         capacity_utilization (summary scenario_a_result);
       allocated_candidates := ∅ |} =
  Ok {| final_allocations := res_final_allocations scenario_a_result;
        quota_filled := quota_fulfillment scenario_a_result;
        internship_capacity_used :=
          capacity_utilization (summary scenario_a_result);
        allocated_candidates := ∅ |}.
Proof.
  apply (phase2_allocates_nothing_when_plan_is_full [scenario_a_internship]
           (quota_fulfillment scenario_a_result) scenario_a_matches).
  intros c Hc. unfold all_categories, reserved_categories in Hc.
  repeat (apply elem_of_cons in Hc as [->|Hc];
          [vm_compute; eexists _, _; repeat split; discriminate|]).
  inversion Hc.
Defined.

(** ** ReportGenerator: the breakdowns *)

Lemma count_by_snoc (key : allocation -> string) (l : list allocation)
    (a : allocation) :
  count_by key (l ++ [a]) =
  <[key a := dict_get (count_by key l) (key a) 0 + 1]> (count_by key l).
Proof. unfold count_by. rewrite foldl_app. reflexivity. Qed.

Lemma occurrences_snoc (key : allocation -> string) (k : string)
    (l : list allocation) (a : allocation) :
  occurrences key k (l ++ [a]) =
  occurrences key k l + (if decide (key a = k) then 1 else 0).
Proof.
  unfold occurrences. rewrite filter_app, length_app, filter_cons, filter_nil.
  destruct (decide _); simpl; lia.
Qed.

Lemma occurrences_nonneg (key : allocation -> string) (k : string)
    (l : list allocation) : 0 <= occurrences key k l.
Proof. unfold occurrences. lia. Qed.

(** A breakdown has an entry exactly for the keys that occur, and the entry
    is the number of occurrences. *)
Lemma count_by_lookup (key : allocation -> string) (l : list allocation)
    (k : string) :
  count_by key l !! k =
  if decide (occurrences key k l = 0) then None
  else Some (occurrences key k l).
Proof.
  induction l as [|a l IH] using rev_ind.
  - reflexivity.
  - rewrite count_by_snoc, occurrences_snoc.
    pose proof (occurrences_nonneg key k l) as Hnn.
    destruct (decide (key a = k)) as [<-|Hne].
    + rewrite lookup_insert_eq. unfold dict_get. rewrite IH.
      destruct (decide (occurrences key (key a) l = 0)) as [Hz|Hz]; simpl.
      * rewrite Hz. reflexivity.
      * rewrite decide_False by lia. f_equal.
    + rewrite lookup_insert_ne by exact Hne. rewrite IH, Z.add_0_r.
      reflexivity.
Qed.

Lemma count_by_sum (key : allocation -> string) (l : list allocation) :
  dict_sum (count_by key l) = Z.of_nat (length l).
Proof.
  induction l as [|a l IH] using rev_ind.
  - apply dict_sum_empty.
  - rewrite count_by_snoc, length_app. simpl.
    unfold dict_get.
    destruct (count_by key l !! key a) as [v|] eqn:Hv; simpl.
    + rewrite (dict_sum_insert_present _ _ v) by exact Hv. lia.
    + rewrite dict_sum_insert_fresh by exact Hv. lia.
Qed.

(** X18.  Given a list of allocation records, [_generate_diversity_report]
    answers the "no allocations" report exactly for the empty list.
    Otherwise the total is the number of records, the category breakdown
    and the allocation-type breakdown each sum to the total, each category
    entry is the positive number of records with that category (categories
    that do not occur have no entry), and the rural and boosted counts lie
    between 0 and the total. *)
Theorem diversity_report_counts (self : service) (l : list allocation) :
  (l = [] ->
   generate_diversity_report self (AllocationList l) = Ok NoAllocations) /\
  (l <> [] ->
   exists r,
     generate_diversity_report self (AllocationList l) = Ok (Report r) /\
     report_total_allocated r = Z.of_nat (length l) /\
     dict_sum (category_breakdown r) = report_total_allocated r /\
     dict_sum (allocation_type_breakdown r) = report_total_allocated r /\
     (forall c n, category_breakdown r !! c = Some n <->
                  n = occurrences a_category c l /\ 1 <= n) /\
     0 <= rural_count r <= report_total_allocated r /\
     0 <= boosted_count r <= report_total_allocated r).
Proof.
  split; [intros ->; reflexivity|].
  intros Hne. destruct l as [|a l]; [congruence|].
  eexists. split; [reflexivity|]. cbn [report_total_allocated
    category_breakdown allocation_type_breakdown rural_count boosted_count].
  split; [reflexivity|].
  split; [apply count_by_sum|]. split; [apply count_by_sum|].
  split; [|split].
  - intros c n. rewrite count_by_lookup.
    pose proof (occurrences_nonneg a_category c (a :: l)).
    destruct (decide _); split.
    + discriminate.
    + intros [-> ?]. lia.
    + intros [= <-]. split; [reflexivity|lia].
    + intros [-> _]. reflexivity.
  - split; [lia|]. apply inj_le. apply length_filter.
  - split; [lia|]. apply inj_le. apply length_filter.
Qed.

Lemma diversity_report_counts_witness :
  exists r,
    generate_diversity_report init_service
      (AllocationList (res_final_allocations scenario_a_result)) =
      Ok (Report r) /\
    report_total_allocated r =
      Z.of_nat (length (res_final_allocations scenario_a_result)) /\
    dict_sum (category_breakdown r) = report_total_allocated r /\
    dict_sum (allocation_type_breakdown r) = report_total_allocated r /\
    (forall c n, category_breakdown r !! c = Some n <->
       n = occurrences a_category c (res_final_allocations scenario_a_result)
       /\ 1 <= n) /\
    0 <= rural_count r <= report_total_allocated r /\
    0 <= boosted_count r <= report_total_allocated r.
Proof.
  apply (proj2 (diversity_report_counts init_service
                  (res_final_allocations scenario_a_result))).
  vm_compute. discriminate.
Defined.

(** X19.  [_check_quota_compliance] reports on exactly the configured
    categories.  For each, the expected count is the configured share of
    the total, truncated; the actual count is the breakdown entry (0 when
    the category has none); and the category is compliant exactly when
    ten times the actual count is at least nine times the expected one. *)
Theorem quota_compliance_entries (self : service)
    (breakdown : gmap string Z) (total : Z) (category : string) :
  (quotas self !! category = None ->
   check_quota_compliance self breakdown total !! category = None) /\
  (forall percentage, quotas self !! category = Some percentage ->
   exists entry,
     check_quota_compliance self breakdown total !! category = Some entry /\
     expected_count entry = py_int (inject_Z total * percentage) /\
     actual_count entry = dict_get breakdown category 0 /\
     (compliant entry = true <->
      9 * expected_count entry <= 10 * actual_count entry)).
Proof.
  unfold check_quota_compliance. rewrite map_lookup_imap. split.
  - intros ->. reflexivity.
  - intros percentage ->. simpl. eexists. split; [reflexivity|]. simpl.
    split; [reflexivity|]. split; [reflexivity|].
    rewrite Qle_bool_iff. unfold Qle, Qmult, inject_Z. simpl. lia.
Qed.

Lemma quota_compliance_entries_witness :
  exists entry,
    check_quota_compliance init_service ∅ 100 !! "obc"%string = Some entry /\
    expected_count entry = py_int (inject_Z 100 * (27 # 100)) /\
    actual_count entry = dict_get (∅ : gmap string Z) "obc"%string 0 /\
    (compliant entry = true <->
     9 * expected_count entry <= 10 * actual_count entry).
Proof.
  apply (proj2 (quota_compliance_entries init_service ∅ 100 "obc"%string)).
  vm_compute. reflexivity.
Defined.

(** ** [_group_matches_by_internship] *)

Lemma matches_for_snoc (k : string) (l : list match_record)
    (m : match_record) :
  matches_for k (l ++ [m]) =
  matches_for k l ++ (if decide (m_internship_id m = Some k) then [m] else []).
Proof.
  unfold matches_for. rewrite filter_app, filter_cons, filter_nil.
  destruct (decide _); reflexivity.
Qed.

Lemma group_fold_lookup (matches : list match_record) (k : string) :
  foldl (fun (acc : gmap string (list match_record)) m =>
           match m_internship_id m with
           | Some internship_id =>
               if bool_decide (internship_id = ""%string) then acc
               else <[internship_id :=
                        dict_get acc internship_id [] ++ [m]]> acc
           | None => acc
           end) ∅ matches !! k =
  if decide (k = ""%string) then None
  else match matches_for k matches with
       | [] => None
       | l => Some l
       end.
Proof.
  induction matches as [|m l IH] using rev_ind.
  - simpl. rewrite lookup_empty. destruct (decide _); reflexivity.
  - rewrite foldl_app, matches_for_snoc. cbn [foldl].
    destruct (m_internship_id m) as [k'|] eqn:Hid.
    + case_bool_decide as Hempty.
      * subst k'. rewrite IH. destruct (decide (k = ""%string)) as [->|Hk];
          [reflexivity|].
        rewrite (decide_False (P := Some ""%string = Some k)) by congruence.
        rewrite app_nil_r. reflexivity.
      * destruct (decide (k' = k)) as [->|Hne].
        -- rewrite lookup_insert_eq.
           rewrite (decide_True (P := Some k = Some k)) by reflexivity.
           change (dict_get ?d k []) with (default [] (d !! k)).
           rewrite IH.
           rewrite !(decide_False (P := k = ""%string)) by exact Hempty.
           destruct (matches_for k l); reflexivity.
        -- rewrite lookup_insert_ne by exact Hne. rewrite IH.
           rewrite (decide_False (P := Some k' = Some k)) by congruence.
           rewrite app_nil_r. reflexivity.
    + rewrite IH, app_nil_r. reflexivity.
Qed.

(** X20.  [_group_matches_by_internship] files every match under its
    internship identifier and drops the matches without one ([None] or the
    empty string).  The group of an identifier is the list of the matches
    that name it, sorted by score from the highest to the lowest; an
    identifier that no match names has no group. *)
Theorem groups_are_sorted_matches_of_one_internship
    (matches : list match_record) (k : string) :
  (k = ""%string \/ matches_for k matches = [] ->
   group_matches_by_internship matches !! k = None) /\
  (k <> ""%string -> matches_for k matches <> [] ->
   group_matches_by_internship matches !! k =
     Some (sort_by_score (matches_for k matches)) /\
   sort_by_score (matches_for k matches) ≡ₚ matches_for k matches /\
   StronglySorted score_ge (sort_by_score (matches_for k matches)) /\
   forall m, m ∈ sort_by_score (matches_for k matches) <->
             m ∈ matches /\ m_internship_id m = Some k).
Proof.
  unfold group_matches_by_internship.
  rewrite lookup_fmap, group_fold_lookup. split.
  - intros [->|Hnone]; [reflexivity|].
    destruct (decide _); [reflexivity|]. rewrite Hnone. reflexivity.
  - intros Hk Hsome. rewrite decide_False by exact Hk.
    split; [destruct (matches_for k matches); [congruence|reflexivity]|].
    split; [apply sort_by_score_perm|]. split.
    + apply Sorted_StronglySorted; [|apply sort_by_score_sorted].
      intros a b c Hab Hbc. unfold score_ge in *.
      eapply Qle_trans; eassumption.
    + intros m. rewrite sort_by_score_perm. unfold matches_for.
      rewrite list_elem_of_filter. tauto.
Qed.

Lemma groups_are_sorted_matches_of_one_internship_witness :
  group_matches_by_internship scenario_d_matches !! "int-9"%string = None /\
  group_matches_by_internship scenario_d_matches !! "int-1"%string =
    Some (sort_by_score (matches_for "int-1" scenario_d_matches)).
Proof.
  split.
  - apply (proj1 (groups_are_sorted_matches_of_one_internship
                    scenario_d_matches "int-9"%string)).
    right. vm_compute. reflexivity.
  - apply (proj2 (groups_are_sorted_matches_of_one_internship
                    scenario_d_matches "int-1"%string)).
    + discriminate.
    + vm_compute. discriminate.
Defined.

(** ** ScoreCalculator: ranges and quirks of the components *)

Lemma size_list_to_set_le (l : list string) :
  (size (list_to_set l : gset string) <= length l)%nat /\
  (size (list_to_set l : gset string) = length l -> NoDup l).
Proof.
  induction l as [|x l [IHle IHnd]].
  - rewrite list_to_set_nil, size_empty. split; [reflexivity|constructor].
  - rewrite list_to_set_cons, length_cons.
    destruct (decide (x ∈ l)) as [Hin|Hnin].
    + assert ({[x]} ∪ list_to_set l = (list_to_set l : gset string)) as ->.
      { apply subseteq_union_1_L. apply singleton_subseteq_l.
        apply elem_of_list_to_set. exact Hin. }
      split; lia.
    + rewrite size_union, size_singleton
        by (apply disjoint_singleton_l; rewrite elem_of_list_to_set;
            exact Hnin).
      split; [lia|]. intros Heq. constructor; [exact Hnin|].
      apply IHnd. lia.
Qed.

Lemma ratio_range (k n : nat) :
  (0 < n)%nat -> (k <= n)%nat ->
  (0 <= inject_Z (Z.of_nat k) / inject_Z (Z.of_nat n) <= 1)%Q /\
  (k = n -> (inject_Z (Z.of_nat k) / inject_Z (Z.of_nat n) == 1)%Q) /\
  ((k < n)%nat -> (inject_Z (Z.of_nat k) / inject_Z (Z.of_nat n) < 1)%Q).
Proof.
  intros Hn Hk.
  assert (0 < inject_Z (Z.of_nat n))%Q as Hpos.
  { change 0%Q with (inject_Z 0). rewrite <- Zlt_Qlt. lia. }
  split; [split|split].
  - apply Qle_shift_div_l; [exact Hpos|]. rewrite Qmult_0_l.
    change 0%Q with (inject_Z 0). rewrite <- Zle_Qle. lia.
  - apply Qle_shift_div_r; [exact Hpos|]. rewrite Qmult_1_l.
    rewrite <- Zle_Qle. lia.
  - intros ->. unfold Qdiv. apply Qmult_inv_r.
    intros Hz. rewrite Hz in Hpos. discriminate.
  - intros Hlt. apply Qlt_shift_div_r; [exact Hpos|]. rewrite Qmult_1_l.
    rewrite <- Zlt_Qlt. lia.
Qed.

Lemma matched_skills_size (c r : list string) :
  (size (list_to_set c ∩ list_to_set r : gset string) <= length r)%nat.
Proof.
  etransitivity; [|apply (size_list_to_set_le r)].
  apply subseteq_size. apply intersection_subseteq_r.
Qed.

(** X21.  The skills component lies between 0 and 1.  It is 1 when both
    skill lists are non-empty, the required skills are pairwise distinct
    once lower-cased and each of them is, lower-cased, among the
    candidate's.  A listing that names a required skill twice (up to letter
    case) is never fully matched: the matched skills are counted as a set
    and divided by the length of the list. *)
Theorem skills_score_full_match (candidate_skills skills_required
    : list string) :
  (0 <= skills_score candidate_skills skills_required <= 1)%Q /\
  (candidate_skills <> [] -> skills_required <> [] ->
   NoDup (lower <$> skills_required) ->
   (forall s, s ∈ skills_required ->
              lower s ∈ (lower <$> candidate_skills)) ->
   (skills_score candidate_skills skills_required == 1)%Q) /\
  (~ NoDup (lower <$> skills_required) ->
   (skills_score candidate_skills skills_required < 1)%Q).
Proof.
  destruct skills_required as [|r0 rs]; [|destruct candidate_skills as [|c0 cs]].
  - split; [split; discriminate|]. split; [congruence|].
    intros Hnd. exfalso. apply Hnd. constructor.
  - split; [split; discriminate|]. split; [congruence|reflexivity].
  - pose (req := lower <$> r0 :: rs). pose (cand := lower <$> c0 :: cs).
    fold req.
    assert (0 < length req)%nat as Hlen by (unfold req; simpl; lia).
    pose proof (matched_skills_size cand req) as Hsize.
    destruct (ratio_range _ _ Hlen Hsize) as ([H0 H1] & Hfull & Hpart).
    assert (skills_score (c0 :: cs) (r0 :: rs) =
            Qmin (inject_Z (Z.of_nat
                    (size (list_to_set cand ∩ list_to_set req
                           : gset string))) /
                  inject_Z (Z.of_nat (length req))) 1) as ->
      by reflexivity.
    split; [split; [apply Q.min_glb; [exact H0|discriminate]
                   |apply Q.le_min_r]|].
    split.
    + intros _ _ Hnd Hall.
      assert (list_to_set cand ∩ list_to_set req
              = (list_to_set req : gset string)) as Hset.
      { apply set_eq. intros x. rewrite elem_of_intersection.
        split; [tauto|]. intros Hx. split; [|exact Hx].
        apply elem_of_list_to_set in Hx. apply elem_of_list_to_set.
        unfold req in Hx. apply list_elem_of_fmap in Hx as (s & -> & Hs).
        apply Hall. exact Hs. }
      rewrite Hset, (size_list_to_set req Hnd).
      rewrite Hset, (size_list_to_set req Hnd) in Hfull.
      rewrite (Hfull eq_refl). reflexivity.
    + intros Hnd.
      assert (size (list_to_set cand ∩ list_to_set req : gset string)
              < length req)%nat as Hlt.
      { destruct (size_list_to_set_le req) as [Hle Heq].
        assert (size (list_to_set cand ∩ list_to_set req : gset string)
                <= size (list_to_set req : gset string))%nat
          by (apply subseteq_size, intersection_subseteq_r).
        destruct (decide (size (list_to_set req : gset string)
                          = length req)) as [He|Hne];
          [exfalso; auto|lia]. }
      eapply Qle_lt_trans; [apply Q.le_min_l|]. apply Hpart. exact Hlt.
Qed.

Lemma skills_score_full_match_witness :
  (skills_score ["Python"; "SQL"]%string ["python"; "sql"]%string == 1)%Q /\
  (skills_score ["Python"; "SQL"]%string ["python"; "sql"; "SQL"]%string
   < 1)%Q.
Proof.
  split.
  - apply (proj1 (proj2 (skills_score_full_match
                           ["Python"; "SQL"]%string
                           ["python"; "sql"]%string))).
    + discriminate.
    + discriminate.
    + apply (bool_decide_eq_true_1 _). vm_compute. reflexivity.
    + intros s Hs. apply list_elem_of_In in Hs. apply list_elem_of_In.
      simpl in Hs. destruct Hs as [<-|[<-|[]]]; vm_compute; auto.
  - apply (proj2 (proj2 (skills_score_full_match
                           ["Python"; "SQL"]%string
                           ["python"; "sql"; "SQL"]%string))).
    apply (bool_decide_eq_false_1 _). vm_compute. reflexivity.
Defined.

Lemma existsb_ext_eq {A : Type} (f g : A -> bool) (l : list A) :
  (forall x, f x = g x) -> existsb f l = existsb g l.
Proof.
  intros Hfg. induction l as [|x l IH]; simpl; [reflexivity|].
  rewrite Hfg, IH. reflexivity.
Qed.

Lemma are_related_categories_sym (cat1 cat2 : string) :
  are_related_categories cat1 cat2 = are_related_categories cat2 cat1.
Proof.
  unfold are_related_categories. apply existsb_ext_eq.
  intros group. apply andb_comm.
Qed.

(** X22.  The category component does not depend on which of the two
    categories is the candidate's, and it is one of 0, 0.3, 0.7 and 1.0:
    0 exactly when one of the categories is empty. *)
Theorem category_score_symmetric (candidate_category internship_category
    : string) :
  category_score candidate_category internship_category =
    category_score internship_category candidate_category /\
  category_score candidate_category internship_category ∈
    [0; 3 # 10; 7 # 10; 1]%Q /\
  (category_score candidate_category internship_category = 0%Q <->
   candidate_category = ""%string \/ internship_category = ""%string).
Proof.
  unfold category_score.
  rewrite (andb_comm (nonempty internship_category)).
  rewrite (orb_comm (contains candidate_category internship_category)).
  rewrite (are_related_categories_sym internship_category).
  split; [reflexivity|].
  destruct candidate_category as [|c cs], internship_category as [|i is_];
    cbn [nonempty andb].
  1-3: split; [apply list_elem_of_here|split; auto].
  destruct (_ || _).
  - split; [do 3 apply list_elem_of_further; apply list_elem_of_here|].
    split; [discriminate|intros [|]; discriminate].
  - destruct (are_related_categories _ _).
    + split; [do 2 apply list_elem_of_further; apply list_elem_of_here|].
      split; [discriminate|intros [|]; discriminate].
    + split; [apply list_elem_of_further, list_elem_of_here|].
      split; [discriminate|intros [|]; discriminate].
Qed.

Lemma split_on_cons (sep : ascii) (s : string) :
  exists piece rest, split_on sep s = piece :: rest.
Proof.
  destruct s as [|c s]; simpl; [eauto|].
  destruct (split_on sep s); [eauto|].
  destruct (Ascii.eqb c sep); eauto.
Qed.

(** A string that ends with the separator has an empty last piece. *)
Lemma split_on_trailing (sep : ascii) (s : string) :
  split_on sep (String.append s (String sep EmptyString)) =
  split_on sep s ++ [EmptyString].
Proof.
  induction s as [|c s IH].
  - simpl. rewrite Ascii.eqb_refl. reflexivity.
  - change (String.append (String c s) (String sep EmptyString))
      with (String c (String.append s (String sep EmptyString))).
    cbn [split_on]. rewrite IH.
    destruct (split_on_cons sep s) as (piece & rest & ->).
    simpl. destruct (Ascii.eqb c sep); reflexivity.
Qed.

Lemma contains_empty (hay : string) : contains hay EmptyString = true.
Proof. destruct hay; reflexivity. Qed.

(** X23.  The location component treats an empty piece of the candidate's
    comma-separated location as found in every internship location: when
    both locations are given and the candidate's has an empty piece - for
    instance because it ends with a comma - the component is 1.0, wherever
    the internship is.  The remote option is read only when one of the
    locations is missing. *)
Theorem location_score_empty_piece (candidate_location internship_location
    : string) (remote_option : bool) :
  (candidate_location <> ""%string -> internship_location <> ""%string ->
   ""%string ∈ split_on ","%char candidate_location ->
   location_score candidate_location internship_location remote_option = 1%Q)
  /\
  (internship_location <> ""%string ->
   location_score (String.append candidate_location ","%string)
     internship_location remote_option = 1%Q) /\
  (candidate_location <> ""%string -> internship_location <> ""%string ->
   location_score candidate_location internship_location remote_option =
   location_score candidate_location internship_location
     (negb remote_option)).
Proof.
  assert (forall cl il r, cl <> ""%string -> il <> ""%string ->
            ""%string ∈ split_on ","%char cl ->
            location_score cl il r = 1%Q) as Hpiece.
  { intros cl il r Hc Hi Hin. unfold location_score.
    destruct cl; [congruence|]. destruct il; [congruence|].
    cbn [nonempty andb].
    assert (existsb (fun loc => contains (String a0 il) loc)
              (split_on ","%char (String a cl)) = true) as ->;
      [|reflexivity].
    apply existsb_exists. exists ""%string.
    split; [apply list_elem_of_In; exact Hin|apply contains_empty]. }
  split; [apply Hpiece|]. split.
  - intros Hi. apply Hpiece; [|exact Hi|].
    + destruct candidate_location; discriminate.
    + rewrite (split_on_trailing ","%char candidate_location).
      apply elem_of_app. right. apply list_elem_of_here.
  - intros Hc Hi. unfold location_score.
    destruct candidate_location; [congruence|].
    destruct internship_location; [congruence|]. reflexivity.
Qed.

Lemma location_score_empty_piece_witness :
  location_score "pune,"%string "chennai"%string false = 1%Q /\
  location_score (String.append "pune"%string ","%string) "chennai"%string
    false = 1%Q /\
  location_score "pune"%string "chennai"%string true =
    location_score "pune"%string "chennai"%string (negb true).
Proof.
  destruct (location_score_empty_piece "pune,"%string "chennai"%string false)
    as (Hpiece & _ & _).
  destruct (location_score_empty_piece "pune"%string "chennai"%string false)
    as (_ & Htrail & _).
  destruct (location_score_empty_piece "pune"%string "chennai"%string true)
    as (_ & _ & Hremote).
  split; [|split].
  - apply Hpiece; [discriminate|discriminate|].
    vm_compute. apply list_elem_of_further, list_elem_of_here.
  - apply Htrail. discriminate.
  - apply Hremote; discriminate.
Defined.

Lemma experience_score_range (n : nat) :
  (1 # 3 <= experience_score n <= 1)%Q.
Proof.
  destruct n as [|n]; [split; discriminate|].
  unfold experience_score. split; [|apply Q.le_min_r].
  apply Q.min_glb; [|discriminate].
  apply Qle_shift_div_l; [reflexivity|].
  unfold Qle, Qmult, inject_Z. simpl. lia.
Qed.

(** X24.  The experience component lies between 1/3 and 1, is 1 from three
    experience entries on, and is not monotone: a candidate with no entry
    gets 0.5, more than a candidate with one entry (1/3). *)
Theorem experience_score_shape :
  (forall n, (1 # 3 <= experience_score n <= 1)%Q) /\
  (forall n, (3 <= n)%nat -> (experience_score n == 1)%Q) /\
  (forall n m, (1 <= n)%nat -> (n <= m)%nat ->
               (experience_score n <= experience_score m)%Q) /\
  (experience_score 1 < experience_score 0)%Q.
Proof.
  split; [exact experience_score_range|]. split; [|split; [|reflexivity]].
  - intros [|n] Hn; [lia|]. unfold experience_score. apply Q.min_r.
    apply Qle_shift_div_l; [reflexivity|].
    unfold Qle, Qmult, inject_Z. simpl. lia.
  - intros [|n] [|m] Hn Hm; try lia. unfold experience_score.
    apply Q.min_le_compat_r.
    apply Qmult_le_compat_r; [|discriminate].
    rewrite <- Zle_Qle. lia.
Qed.

Lemma experience_score_shape_witness :
  (experience_score 5 == 1)%Q /\
  (experience_score 1 <= experience_score 2)%Q.
Proof.
  destruct experience_score_shape as (_ & Hsat & Hmono & _).
  split; [apply Hsat; lia|apply Hmono; lia].
Defined.

Lemma category_score_range (c i : string) :
  (0 <= category_score c i <= 1)%Q.
Proof.
  unfold category_score.
  destruct (_ && _); [|split; discriminate].
  destruct (_ || _); [split; discriminate|].
  destruct (are_related_categories _ _); split; discriminate.
Qed.

Lemma location_score_range (c i : string) (r : bool) :
  (0 <= location_score c i r <= 1)%Q.
Proof.
  unfold location_score.
  destruct (_ && _).
  - destruct (existsb _ _); [split; discriminate|].
    destruct (same_state _ _); split; discriminate.
  - destruct r; split; discriminate.
Qed.

Lemma salary_score_range (salary_max : option Z) :
  (forall s, salary_max = Some s -> 0 <= s) ->
  (0 <= salary_score salary_max <= 1)%Q.
Proof.
  intros Hs. unfold salary_score. split; [|apply Q.le_min_r].
  apply Q.min_glb; [|discriminate].
  apply Qle_shift_div_l; [reflexivity|]. rewrite Qmult_0_l.
  change 0%Q with (inject_Z 0). rewrite <- Zle_Qle.
  destruct salary_max as [s|]; simpl; [apply Hs; reflexivity|lia].
Qed.

(** X25.  For an internship whose upper salary bound is not negative (or
    absent), the overall score of [_calculate_real_match_score] lies
    between 1/30 and 1: the weights sum to 1.0, every component lies
    between 0 and 1, and the experience component is at least 1/3. *)
Theorem overall_score_range (candidate_data : candidate_profile)
    (internship0 : listing) :
  (forall s, ls_salary_max internship0 = Some s -> 0 <= s) ->
  (1 # 30 <= calculate_real_match_score candidate_data internship0 <= 1)%Q.
Proof.
  intros Hs. unfold calculate_real_match_score, final_score.
  pose proof (proj1 (skills_score_full_match (cp_skills candidate_data)
                       (ls_skills_required internship0))) as Hsk.
  pose proof (category_score_range (lower (cp_category candidate_data))
                (lower (ls_category internship0))) as Hcat.
  pose proof (location_score_range (lower (cp_location candidate_data))
                (lower (ls_location internship0))
                (ls_remote_option internship0)) as Hloc.
  pose proof (experience_score_range (cp_experience candidate_data)) as Hexp.
  pose proof (salary_score_range (ls_salary_max internship0) Hs) as Hsal.
  lra.
Qed.

Lemma overall_score_range_witness :
  (1 # 30 <= calculate_real_match_score pune_candidate chennai_listing <= 1)%Q.
Proof.
  apply (overall_score_range pune_candidate chennai_listing).
  intros s [= <-]. lia.
Defined.

(** ** The allocation endpoint *)

(** X26.  [AllocationAPI.post] never answers 200 and never stores an
    allocation, whatever the store holds: it answers 400 exactly when the
    request has a JSON body and the store returns no match for it, and 500
    in every other case, because [apply_affirmative_action] always
    raises. *)
Theorem allocation_post_never_succeeds
    (query_documents : option string -> option (list match_record))
    (get_document : option string -> option (option internship))
    (set_order : list (option string) -> list (option string))
    (store_allocations : affirmative_action_result -> option string)
    (body : option (option string)) :
  (fst (allocation_post query_documents get_document set_order
          store_allocations body) = 400 \/
   fst (allocation_post query_documents get_document set_order
          store_allocations body) = 500) /\
  snd (allocation_post query_documents get_document set_order
         store_allocations body) = None /\
  (fst (allocation_post query_documents get_document set_order
          store_allocations body) = 400 <->
   exists batch_id,
     body = Some batch_id /\
     query_documents
       (match batch_id with
        | Some b => if nonempty b then Some b else None
        | None => None
        end) = Some []).
Proof.
  unfold allocation_post. destruct body as [batch_id|]; simpl.
  2: { split; [auto|]. split; [reflexivity|].
       split; [discriminate|intros (b & Hb & _); discriminate]. }
  set (batch_filter := match batch_id with
                       | Some b => if nonempty b then Some b else None
                       | None => None
                       end).
  destruct (query_documents batch_filter) as [[|m matches]|] eqn:Hq; simpl.
  - split; [auto|]. split; [reflexivity|]. split; [|reflexivity].
    intros _. exists batch_id. split; [reflexivity|exact Hq].
  - assert (forall internships,
              returned (snd (apply_affirmative_action init_service
                               (m :: matches) internships)) = false)
      as Hraise
      by (intros; apply apply_affirmative_action_never_returns).
    destruct (fetch_internships _ _) as [internships|]; simpl.
    + specialize (Hraise internships).
      destruct (snd (apply_affirmative_action _ _ _)); [discriminate|].
      simpl. split; [auto|]. split; [reflexivity|].
      split; [discriminate|].
      intros (b & [= <-] & Hb). fold batch_filter in Hb. congruence.
    + split; [auto|]. split; [reflexivity|]. split; [discriminate|].
      intros (b & [= <-] & Hb). fold batch_filter in Hb. congruence.
  - split; [auto|]. split; [reflexivity|]. split; [discriminate|].
    intros (b & [= <-] & Hb). fold batch_filter in Hb. congruence.
Qed.

(** ** The best general candidate *)

Lemma phase1_scan_no_candidate (internships : list internship)
    (category : string) (quota_limit : Z) (matches : list match_record)
    (st st' : alloc_state) :
  (forall m, m ∈ matches -> get_candidate_category m <> category) ->
  phase1_scan internships category quota_limit matches st = Ok st' ->
  st' = st.
Proof.
  induction matches as [|m rest IH]; intros Hcat Hrun; simpl in Hrun.
  - congruence.
  - assert (forall x, x ∈ rest -> get_candidate_category x <> category)
      as Hrest by (intros x Hx; apply Hcat; right; exact Hx).
    apply bind_Ok in Hrun as (filled & _ & Hrun).
    destruct (_ <=? _); [congruence|].
    destruct (skip_match _ _ _); [auto|].
    destruct (String.eqb _ _) eqn:Heq; [|auto].
    apply String.eqb_eq in Heq. exfalso. apply (Hcat m); [left|exact Heq].
Qed.

Lemma phase1_no_candidate (internships : list internship)
    (quota_slots : gmap string Z) (matches : list match_record)
    (categories : list string) (st st' : alloc_state) :
  (forall m c, m ∈ matches -> c ∈ categories ->
               get_candidate_category m <> c) ->
  phase1 internships quota_slots matches categories st = Ok st' ->
  st' = st.
Proof.
  revert st. induction categories as [|c rest IH]; intros st Hcat Hrun;
    simpl in Hrun.
  - congruence.
  - apply bind_Ok in Hrun as (st1 & Hscan & Hrun).
    apply phase1_scan_no_candidate in Hscan as ->.
    + apply IH; [|exact Hrun]. intros m c' Hm Hc'. apply Hcat; [exact Hm|].
      right. exact Hc'.
    + intros m Hm. apply Hcat; [exact Hm|left].
Qed.

Lemma record_allocation_extends (st st' : alloc_state) (m : match_record)
    (category allocation_type : string) (quota_filled' : gmap string Z) :
  record_allocation st m category allocation_type quota_filled' = Ok st' ->
  final_allocations st' =
  final_allocations st ++
  [create_allocation_record m category allocation_type].
Proof.
  unfold record_allocation. intros (used' & _ & [= <-])%bind_Ok. reflexivity.
Qed.

Lemma phase2_step_extends (internships : list internship)
    (quota_slots : gmap string Z) (st st' : alloc_state) (m : match_record) :
  phase2_step internships quota_slots st m = Ok st' ->
  exists more, final_allocations st' = final_allocations st ++ more.
Proof.
  unfold phase2_step. intros Hrun.
  destruct (skip_match _ _ _);
    [injection Hrun as <-; exists []; rewrite app_nil_r; reflexivity|].
  apply bind_Ok in Hrun as (try_general & _ & Hrun).
  destruct try_general.
  - apply bind_Ok in Hrun as (qf' & _ & Hrun).
    apply record_allocation_extends in Hrun. eauto.
  - apply bind_Ok in Hrun as ([qf'|] & _ & Hrun).
    + apply record_allocation_extends in Hrun. eauto.
    + apply bind_Ok in Hrun as (filled & _ & Hrun).
      destruct (_ <? _).
      * apply bind_Ok in Hrun as (qf' & _ & Hrun).
        apply record_allocation_extends in Hrun. eauto.
      * injection Hrun as <-. exists []. rewrite app_nil_r. reflexivity.
Qed.

Lemma phase2_extends (internships : list internship)
    (quota_slots : gmap string Z) (matches : list match_record) :
  forall st st',
    phase2 internships quota_slots matches st = Ok st' ->
    exists more, final_allocations st' = final_allocations st ++ more.
Proof.
  induction matches as [|m rest IH]; intros st st' Hrun; simpl in Hrun.
  - injection Hrun as <-. exists []. rewrite app_nil_r. reflexivity.
  - apply bind_Ok in Hrun as (st1 & Hstep & Hrun).
    apply phase2_step_extends in Hstep as [more1 H1].
    apply IH in Hrun as [more2 H2].
    exists (more1 ++ more2). rewrite H2, H1, app_assoc. reflexivity.
Qed.

(** X27.  When every candidate is of the [general] category, the first
    match of the list - the best-scored one - gets the first allocation, of
    type [general], provided its internship is listed with at least one
    seat and the plan has at least one general slot.  (Scenario E of the
    specification is the case of one internship with one seat.) *)
Theorem best_general_candidate_is_allocated (self : service)
    (m : match_record) (rest : list match_record)
    (quota_slots : gmap string Z) (internships : list internship)
    (r : allocation_result) :
  (forall x, x ∈ m :: rest -> get_candidate_category x = "general"%string) ->
  m_internship_id m ∈ (i_id <$> internships) ->
  1 <= get_internship_capacity (m_internship_id m) internships ->
  1 <= dict_get quota_slots "general"%string 0 ->
  allocate_with_quotas self (m :: rest) quota_slots internships = Ok r ->
  head (res_final_allocations r) =
  Some (create_allocation_record m "general" "general").
Proof.
  intros Hgen Htracked Hcap Hslot Hrun. unfold allocate_with_quotas in Hrun.
  apply bind_Ok in Hrun as (st1 & H1 & Hrun).
  apply bind_Ok in Hrun as (st2 & H2 & [= <-]). simpl.
  apply phase1_no_candidate in H1 as ->.
  2: { intros x c Hx Hc Heq. rewrite (Hgen x Hx) in Heq. subst c.
       apply list_elem_of_In in Hc. simpl in Hc.
       destruct Hc as [|[|[|[|[]]]]]; discriminate. }
  simpl in H2. apply bind_Ok in H2 as (st1 & Hstep & H2).
  apply phase2_extends in H2 as [more ->].
  assert (final_allocations st1 =
          [create_allocation_record m "general" "general"]) as ->;
    [|reflexivity].
  unfold phase2_step in Hstep.
  assert (skip_match internships (init_state self internships) m = false)
    as Hskip.
  { unfold skip_match. simpl. apply orb_false_iff. split.
    - apply bool_decide_eq_false. apply not_elem_of_empty.
    - apply Z.leb_gt. unfold dict_get.
      rewrite init_capacity_used_lookup, decide_True by exact Htracked.
      simpl. lia. }
  rewrite Hskip in Hstep.
  rewrite (Hgen m) in Hstep by left.
  change (String.eqb "general" "general") with true in Hstep.
  cbv iota in Hstep.
  apply bind_Ok in Hstep as (try_general & Htry & Hstep).
  apply bind_Ok in Htry as (g & Hg & [= <-]).
  apply dict_index_Ok in Hg. simpl in Hg. rewrite lookup_fmap in Hg.
  destruct (quotas self !! "general"%string); [|discriminate].
  injection Hg as <-.
  assert ((0 <? dict_get quota_slots "general"%string 0) = true) as Hroom
    by (apply Z.ltb_lt; lia).
  rewrite Hroom in Hstep.
  apply bind_Ok in Hstep as (qf' & _ & Hstep).
  apply record_allocation_extends in Hstep. exact Hstep.
Qed.

Lemma best_general_candidate_is_allocated_witness :
  head (res_final_allocations
          (value_or no_allocations
             (allocate_with_quotas init_service scenario_e_matches
                one_slot_each [scenario_a_internship]))) =
  Some (create_allocation_record
          (plain_match "cand-a" "int-1" (90 # 100) "") "general" "general").
Proof.
  apply (best_general_candidate_is_allocated init_service
           (plain_match "cand-a" "int-1" (90 # 100) "")
           [plain_match "cand-c" "int-1" (70 # 100) "General"]
           one_slot_each [scenario_a_internship]).
  - intros x Hx. apply list_elem_of_In in Hx. simpl in Hx.
    destruct Hx as [<-|[<-|[]]]; reflexivity.
  - vm_compute. apply list_elem_of_here.
  - vm_compute. discriminate.
  - vm_compute. discriminate.
  - vm_compute. reflexivity.
Defined.
